(** * The schema migration runner of core/server/data/migration/index.js

    A shallow embedding of the migration module: the version resolver
    ([getDatabaseVersion], [setDatabaseVersion], [getVersionAfter],
    [getVersionBefore]), the table diff ([getDeleteCommands],
    [getAddCommands]), the engine adapter ([getTables],
    [checkMySQLPostTable]) and the orchestrator ([init], [reset],
    [migrateUp], [migrateUpFreshDb]).  The source file holds two variants
    of the module's exports: the first, which mends an installation by a
    diff of its tables against the Registry, is embedded in full; of the
    second, which steps through numbered migrations, the version
    arithmetic is.

    JavaScript strings are modelled as [string], one [ascii] per code unit
    (code units U+0000 to U+00FF); JavaScript integers as [Z], with [None]
    standing for NaN where a parse can fail.  Promises are modelled by a
    state monad over a [world] that holds the database, the module's cached
    variable, the queries that were started without anybody waiting for
    them, and the chronological trace of issued and settled operations. *)

From Stdlib Require Import String Ascii List ZArith NArith Bool Lia Arith.
Import ListNotations.
Local Open Scope string_scope.

(** ** JavaScript primitives used by the module *)

Module JS.

Definition code (c : ascii) : N := N_of_ascii c.

Definition is_digit (c : ascii) : bool :=
  ((48 <=? code c) && (code c <=? 57))%N.

Definition is_hex_digit (c : ascii) : bool :=
  (is_digit c
   || ((65 <=? code c) && (code c <=? 70))
   || ((97 <=? code c) && (code c <=? 102)))%N.

Definition is_bin_digit (c : ascii) : bool :=
  ((code c =? 48) || (code c =? 49))%N.

Definition is_oct_digit (c : ascii) : bool :=
  ((48 <=? code c) && (code c <=? 55))%N.

(** StrWhiteSpaceChar restricted to one-byte code units:
    TAB, LF, VT, FF, CR, SP and NBSP. *)
Definition is_ws (c : ascii) : bool :=
  ((code c =? 9) || (code c =? 10) || (code c =? 11) || (code c =? 12)
   || (code c =? 13) || (code c =? 32) || (code c =? 160))%N.

Fixpoint trim_left (s : string) : string :=
  match s with
  | String c r => if is_ws c then trim_left r else s
  | EmptyString => EmptyString
  end.

Fixpoint trim_right (s : string) : string :=
  match s with
  | String c r =>
      match trim_right r with
      | EmptyString => if is_ws c then EmptyString else String c EmptyString
      | r' => String c r'
      end
  | EmptyString => EmptyString
  end.

Definition trim (s : string) : string := trim_right (trim_left s).

Fixpoint all_chars (p : ascii -> bool) (s : string) : bool :=
  match s with
  | String c r => p c && all_chars p r
  | EmptyString => true
  end.

(** The longest prefix of [s] whose characters satisfy [p], and the rest. *)
Fixpoint span (p : ascii -> bool) (s : string) : string * string :=
  match s with
  | String c r =>
      if p c then let (a, b) := span p r in (String c a, b)
      else (EmptyString, s)
  | EmptyString => (EmptyString, EmptyString)
  end.

Definition nonempty (s : string) : bool :=
  match s with EmptyString => false | _ => true end.

Definition strip_sign (s : string) : string :=
  match s with
  | String "+" r => r
  | String "-" r => r
  | _ => s
  end.

(** ExponentPart, or nothing. *)
Definition exponent_ok (s : string) : bool :=
  match s with
  | EmptyString => true
  | String c r =>
      (Ascii.eqb c "e" || Ascii.eqb c "E")
      && (let d := strip_sign r in nonempty d && all_chars is_digit d)
  end.

(** StrUnsignedDecimalLiteral. *)
Definition unsigned_decimal (s : string) : bool :=
  if String.eqb s "Infinity" then true
  else
    let (d1, r1) := span is_digit s in
    match r1 with
    | String "." r2 =>
        let (d2, r3) := span is_digit r2 in
        (nonempty d1 || nonempty d2) && exponent_ok r3
    | _ => nonempty d1 && exponent_ok r1
    end.

Definition prefixed_integer (s : string) : bool :=
  match s with
  | String "0" (String x r) =>
      if Ascii.eqb x "x" || Ascii.eqb x "X" then nonempty r && all_chars is_hex_digit r
      else if Ascii.eqb x "b" || Ascii.eqb x "B" then nonempty r && all_chars is_bin_digit r
      else if Ascii.eqb x "o" || Ascii.eqb x "O" then nonempty r && all_chars is_oct_digit r
      else false
  | _ => false
  end.

(** StringNumericLiteral: the strings [Number] converts to a number.
    The empty (or all-blank) string converts to 0. *)
Definition numeric_literal (s : string) : bool :=
  let t := trim s in
  match t with
  | EmptyString => true
  | _ => prefixed_integer t || unsigned_decimal (strip_sign t)
  end.

(** [isNaN(s)] for a string [s]: [Number(s)] is NaN. *)
Definition isNaN (s : string) : bool := negb (numeric_literal s).

Definition digit_val (c : ascii) : Z := Z.of_N (code c) - 48.

Fixpoint digits_val (acc : Z) (s : string) : Z :=
  match s with
  | String c r => digits_val (10 * acc + digit_val c) r
  | EmptyString => acc
  end.

(** [parseInt(s, 10)]: leading blanks are skipped, a sign is read, then
    the longest run of decimal digits; [None] is NaN.  The value is
    exact as long as it stays below 2^53. *)
Definition parseInt (s : string) : option Z :=
  let t := trim_left s in
  let neg := match t with String "-" _ => true | _ => false end in
  let (d, _) := span is_digit (strip_sign t) in
  match d with
  | EmptyString => None
  | _ => Some (if neg then (- digits_val 0 d)%Z else digits_val 0 d)
  end.

(** [a > b] on numbers: false as soon as one side is NaN. *)
Definition num_gt (a b : option Z) : bool :=
  match a, b with
  | Some x, Some y => (y <? x)%Z
  | _, _ => false
  end.

(** [a < b] on two strings: code unit by code unit, a proper prefix
    being smaller. *)
Fixpoint str_lt (a b : string) : bool :=
  match a, b with
  | _, EmptyString => false
  | EmptyString, String _ _ => true
  | String x a', String y b' =>
      if (code x <? code y)%N then true
      else if (code y <? code x)%N then false
      else str_lt a' b'
  end.

Definition digit_char (d : Z) : ascii := ascii_of_N (Z.to_N (48 + d)).

Fixpoint digits_of (fuel : nat) (n : Z) (acc : string) : string :=
  let acc' := String (digit_char (n mod 10)) acc in
  match fuel with
  | O => acc'
  | S f => if (n / 10 =? 0)%Z then acc' else digits_of f (n / 10) acc'
  end.

(** [String(n)] for an integer [n]: all its decimal digits, which is what
    JavaScript prints for an integer below 1e21 that a number holds
    exactly (up to 2^53). *)
Definition String_of (n : Z) : string :=
  let m := Z.abs n in
  let ds := digits_of (Z.to_nat (Z.log2 m)) m EmptyString in
  if (n <? 0)%Z then String "-" ds else ds.

Definition lower_char (c : ascii) : ascii :=
  let n := code c in
  if (((65 <=? n) && (n <=? 90))
      || ((192 <=? n) && (n <=? 222) && negb (n =? 215)))%N
  then ascii_of_N (n + 32) else c.

Fixpoint toLowerCase (s : string) : string :=
  match s with
  | String c r => String (lower_char c) (toLowerCase r)
  | EmptyString => EmptyString
  end.

End JS.

(** ** lodash helpers *)

Definition mem (x : string) (l : list string) : bool :=
  existsb (String.eqb x) l.

(** [_.difference(xs, ys)]: the elements of [xs] not in [ys], in order. *)
Definition difference (xs ys : list string) : list string :=
  filter (fun x => negb (mem x ys)) xs.

Definition isEmpty {A} (l : list A) : bool :=
  match l with [] => true | _ => false end.

(** ** Version arithmetic (getVersionAfter, getVersionBefore) *)

Definition initialVersion : string := "000".

(** The loop [while (v.length < 3) { v = "0" + v; }]. *)
Fixpoint pad_loop (fuel : nat) (v : string) : string :=
  match fuel with
  | O => v
  | S f => if Nat.ltb (String.length v) 3 then pad_loop f (String "0" v) else v
  end.

Definition pad (v : string) : string := pad_loop 3 v.

Definition parse_or_initial (currVersion : string) : Z :=
  match JS.parseInt currVersion with
  | Some n => n
  | None => match JS.parseInt initialVersion with Some n => n | None => 0%Z end
  end.

Definition getVersionAfter (currVersion : string) : string :=
  let currVersionNum := parse_or_initial currVersion in
  let currVersionNum := (currVersionNum + 1)%Z in
  let nextVersion := JS.String_of currVersionNum in
  pad nextVersion.

Definition getVersionBefore (currVersion : string) : string :=
  let currVersionNum := parse_or_initial currVersion in
  let currVersionNum := (currVersionNum - 1)%Z in
  let prevVersion := JS.String_of currVersionNum in
  pad prevVersion.

(** ** Promises, the database and the error sink *)

(** A value a promise is rejected with (or that is thrown): an [Error]
    object carrying a message, or a bare string. *)
Inductive js_err : Type :=
| JError (message : string)
| JString (s : string).

(** The operations the module asks of its collaborators.  A [value] of
    the settings table is a nullable text: [None] is NULL. *)
Inductive query : Type :=
| HasTable (table : string)
| SelectVersions
| UpdateVersion (value : option string)
| CreateTable (table : string)
| DropTableIfExists (table : string)
| Raw (sql : string)
| PopulateFixtures
| PopulateDefaults.

(** [Issued q]: the query was started.  [Fulfilled q] / [Refused q]: its
    promise settled and the code waiting on it resumed.
    [LogErrorAndExit]: the call to the error sink that ends the process. *)
Inductive event : Type :=
| Issued (q : query)
| Fulfilled (q : query)
| Refused (q : query)
| LogErrorAndExit (headline : string) (detail : js_err).

Record database : Type := mkDatabase {
  tables : list string;
  (** rows (key, value) of the settings table; empty while it does not exist *)
  settings : list (string * option string);
  (** rows (Field, Type) of [SHOW FIELDS FROM posts] *)
  posts_fields : list (string * string)
}.

Record world : Type := mkWorld {
  db : database;
  (** the module variable [defaultDatabaseVersion]; [None] is undefined *)
  defaultDatabaseVersion : option string;
  (** queries started whose promise nothing waits on *)
  inflight : list query;
  trace : list event
}.

Inductive outcome (A : Type) : Type :=
| Resolved (a : A)
| Rejected (e : js_err)
| Exited.
Arguments Resolved {A} a.
Arguments Rejected {A} e.
Arguments Exited {A}.

Definition M (A : Type) : Type := world -> outcome A * world.

Definition ret {A} (a : A) : M A := fun w => (Resolved a, w).

Definition throw {A} (e : js_err) : M A := fun w => (Rejected e, w).

(** [p.then(f)] *)
Definition bind {A B} (p : M A) (f : A -> M B) : M B :=
  fun w =>
    match p w with
    | (Resolved a, w1) => f a w1
    | (Rejected e, w1) => (Rejected e, w1)
    | (Exited, w1) => (Exited, w1)
    end.

(** [p.then(f, g)]: [g] sees the rejections of [p], never those of [f]. *)
Definition then2 {A B} (p : M A) (f : A -> M B) (g : js_err -> M B) : M B :=
  fun w =>
    match p w with
    | (Resolved a, w1) => f a w1
    | (Rejected e, w1) => g e w1
    | (Exited, w1) => (Exited, w1)
    end.

Notation "x <- p ;; k" := (bind p (fun x => k))
  (at level 61, p at next level, right associativity).

(** [sequence(tasks)] of when/sequence: each task starts once the one
    before it has resolved; a rejection abandons the tasks that remain. *)
Fixpoint sequence (tasks : list (M unit)) : M unit :=
  match tasks with
  | [] => ret tt
  | task :: rest => _ <- task ;; sequence rest
  end.

Definition log (e : event) (w : world) : world :=
  mkWorld (db w) (defaultDatabaseVersion w) (inflight w) (trace w ++ [e]).

Definition set_db (d : database) (w : world) : world :=
  mkWorld d (defaultDatabaseVersion w) (inflight w) (trace w).

(** A query whose promise the caller waits on: it is issued, the database
    answers, and the caller resumes with the answer. *)
Definition await {A} (q : query) (answer : database -> js_err + (A * database)) : M A :=
  fun w =>
    let w1 := log (Issued q) w in
    match answer (db w1) with
    | inl e => (Rejected e, log (Refused q) w1)
    | inr (a, d) => (Resolved a, log (Fulfilled q) (set_db d w1))
    end.

(** A query that is started and left alone: the caller goes on at once.
    The query stays in [inflight]; when it settles and what it then does
    to the database is outside the model, so what is stated of the
    database after it speaks of the queries that were waited on. *)
Definition detach (q : query) : M unit :=
  fun w =>
    let w1 := log (Issued q) w in
    (Resolved tt, mkWorld (db w1) (defaultDatabaseVersion w1) (inflight w1 ++ [q]) (trace w1)).

(** [errors.logErrorAndExit(headline, detail)] *)
Definition logErrorAndExit {A} (headline : string) (detail : js_err) : M A :=
  fun w => (Exited, log (LogErrorAndExit headline detail) w).

(** *** What the database answers *)

Definition is_version_key (k : string) : bool :=
  String.eqb k "databaseVersion" || String.eqb k "currentVersion".

Definition no_such_table (t : string) : js_err :=
  JError ("no such table: " ++ t).

Definition answer_hasTable (t : string) (d : database) : js_err + (bool * database) :=
  inr (mem t (tables d), d).

(** The values of the rows keyed 'databaseVersion' or 'currentVersion'. *)
Definition marker_values (d : database) : list (option string) :=
  map snd (filter (fun r => is_version_key (fst r)) (settings d)).

Definition answer_selectVersions (d : database) : js_err + (list (option string) * database) :=
  if mem "settings" (tables d)
  then inr (marker_values d, d)
  else inl (no_such_table "settings").

Definition answer_updateVersion (v : option string) (d : database) : js_err + (unit * database) :=
  if mem "settings" (tables d)
  then inr (tt, mkDatabase (tables d)
                  (map (fun r => if String.eqb (fst r) "databaseVersion" then (fst r, v) else r)
                       (settings d))
                  (posts_fields d))
  else inl (no_such_table "settings").

(** [createTable] adds the table it names.  A table the engine keeps of
    its own (SQLite's sqlite_sequence, which comes with the first
    auto-increment column) is not added here; it is live only where the
    initial database has it. *)
Definition answer_createTable (t : string) (d : database) : js_err + (unit * database) :=
  if mem t (tables d)
  then inl (JError ("table " ++ t ++ " already exists"))
  else inr (tt, mkDatabase (tables d ++ [t]) (settings d) (posts_fields d)).

Definition answer_dropTableIfExists (t : string) (d : database) : js_err + (unit * database) :=
  inr (tt, mkDatabase (filter (fun x => negb (String.eqb x t)) (tables d))
             (if String.eqb t "settings" then [] else settings d)
             (if String.eqb t "posts" then [] else posts_fields d)).

Definition answer_listTables (d : database) : js_err + (list string * database) :=
  inr (tables d, d).

Definition answer_showFields (d : database) : js_err + (list (string * string) * database) :=
  if mem "posts" (tables d)
  then inr (filter (fun e => String.eqb (fst e) "html" || String.eqb (fst e) "markdown")
                   (posts_fields d), d)
  else inl (no_such_table "posts").

(** The fixture and default-settings loaders belong to other modules;
    what they insert is not tracked here. *)
Definition answer_loader (d : database) : js_err + (unit * database) :=
  inr (tt, d).

Definition populateFixtures : M unit := await PopulateFixtures answer_loader.
Definition populateDefaults : M unit := await PopulateDefaults answer_loader.

(** ** The migration module *)

Section Migration.

(** [client]: the engine identifier of the open database handle. *)
Variable client : string.
(** [schemaTables = _.keys(schema)]: the Registry's table names in
    declaration order. *)
Variable schemaTables : list string.
(** [defaultSettings.core] as (key, defaultValue) pairs. *)
Variable defaultSettings_core : list (string * string).
(** What [errors.throwError(message)] throws. *)
Variable thrown : string -> js_err.

Definition falsy (v : option string) : bool :=
  match v with
  | Some (String _ _) => false
  | _ => true
  end.

Definition getDefaultDatabaseVersion : M string :=
  fun w =>
    match defaultDatabaseVersion w with
    | Some (String _ _ as v) => (Resolved v, w)
    | _ =>
        match find (fun setting => String.eqb (fst setting) "databaseVersion")
                   defaultSettings_core with
        | Some setting =>
            (Resolved (snd setting),
             mkWorld (db w) (Some (snd setting)) (inflight w) (trace w))
        | None =>
            (Rejected (JError "Cannot read property 'defaultValue' of undefined"), w)
        end
    end.

(** [isNaN(version.value)] and [parseInt(version.value, 10)] on a
    nullable text: [Number(null)] is 0, [parseInt(null)] is NaN. *)
Definition isNaN_value (v : option string) : bool :=
  match v with
  | Some s => JS.isNaN s
  | None => false
  end.

Definition parseInt_value (v : option string) : option Z :=
  match v with
  | Some s => JS.parseInt s
  | None => None
  end.

(** The [_.reduce] over the marker rows, started at [memo]. *)
Fixpoint reduce_versions (versions : list (option string)) (memo : option string)
  : js_err + option string :=
  match versions with
  | [] => inr memo
  | value :: rest =>
      if isNaN_value value
      then inl (thrown "Database version is not recognised")
      else reduce_versions rest
             (if JS.num_gt (parseInt_value value) (parseInt_value memo)
              then value else memo)
  end.

Definition getDatabaseVersion : M string :=
  exists_ <- await (HasTable "settings") (answer_hasTable "settings") ;;
  if (exists_ : bool) then
    versions <- await SelectVersions answer_selectVersions ;;
    match reduce_versions versions (Some initialVersion) with
    | inl e => throw e
    | inr databaseVersion =>
        ret (match databaseVersion with
             | Some (String _ _ as v) => v
             | _ => initialVersion
             end)
    end
  else throw (JError "Settings table does not exist").

Definition setDatabaseVersion : M unit :=
  fun w =>
    await (UpdateVersion (defaultDatabaseVersion w))
          (answer_updateVersion (defaultDatabaseVersion w)) w.

(** The column layout the builder callback derives from the Registry is
    not tracked: a table is known by its name. *)
Definition createTable (table : string) : M unit :=
  await (CreateTable table) (answer_createTable table).

Definition deleteTable (table : string) : M unit :=
  await (DropTableIfExists table) (answer_dropTableIfExists table).

(** The command lists are [undefined] ([None]) when there is nothing
    to do. *)
Definition getDeleteCommands (oldTables newTables : list string)
  : option (list (M unit)) :=
  let deleteTables := difference oldTables newTables in
  if negb (isEmpty deleteTables)
  then Some (map (fun table => deleteTable table) deleteTables)
  else None.

Definition getAddCommands (oldTables newTables : list string)
  : option (list (M unit)) :=
  let addTables := difference newTables oldTables in
  if negb (isEmpty addTables)
  then Some (map (fun table => createTable table) addTables)
  else None.

Definition isEmpty_commands (c : option (list (M unit))) : bool :=
  match c with
  | Some l => isEmpty l
  | None => true
  end.

Definition concat_commands (commands : list (M unit)) (c : option (list (M unit)))
  : list (M unit) :=
  match c with
  | Some l => commands ++ l
  | None => commands
  end.

Definition getTablesFromSqlite3 : M (list string) :=
  response <- await (Raw "select * from sqlite_master where type = 'table'")
                    answer_listTables ;;
  ret (filter (fun name => negb (String.eqb name "sqlite_sequence")) response).

Definition getTablesFromPgSQL : M (list string) :=
  await (Raw "SELECT table_name FROM information_schema.tables WHERE table_schema = 'public'")
        answer_listTables.

Definition getTablesFromMySQL : M (list string) :=
  await (Raw "show tables") answer_listTables.

Definition getTables : M (list string) :=
  if String.eqb client "sqlite3" then getTablesFromSqlite3
  else if String.eqb client "mysql" then getTablesFromMySQL
  else if String.eqb client "pg" then getTablesFromPgSQL
  else throw (JString ("No support for database client " ++ client)).

Definition alter_posts (field : string) : query :=
  Raw ("ALTER TABLE posts MODIFY " ++ field ++ " MEDIUMTEXT").

(** The [_.map] callback of [checkMySQLPostTable], entry by entry: the
    ALTER is started by its [.then], and its promise becomes an element
    of the returned array ([None] is the [undefined] of an entry left
    alone). *)
Fixpoint check_entries (entries : list (string * string)) : M (list (option query)) :=
  match entries with
  | [] => ret []
  | entry :: rest =>
      p <- (if negb (String.eqb (JS.toLowerCase (snd entry)) "mediumtext")
            then _ <- detach (alter_posts (fst entry)) ;; ret (Some (alter_posts (fst entry)))
            else ret None) ;;
      ps <- check_entries rest ;;
      ret (p :: ps)
  end.

(** The [.then] callback returns the array itself, which is no promise:
    the promise of [checkMySQLPostTable] resolves with it at once. *)
Definition checkMySQLPostTable : M (list (option query)) :=
  response <- await (Raw "SHOW FIELDS FROM posts where Field ='html' OR Field = 'markdown'")
                    answer_showFields ;;
  check_entries response.

Definition migrateUp : M unit :=
  oldTables <- (oldTables <- getTables ;;
                if negb (isEmpty oldTables) && String.eqb client "mysql"
                then _ <- checkMySQLPostTable ;; ret oldTables
                else ret oldTables) ;;
  let deleteCommands := getDeleteCommands oldTables schemaTables in
  let addCommands := getAddCommands oldTables schemaTables in
  let commands := [] in
  let commands := if negb (isEmpty_commands deleteCommands)
                  then concat_commands commands deleteCommands else commands in
  let commands := if negb (isEmpty_commands addCommands)
                  then concat_commands commands addCommands else commands in
  if negb (isEmpty commands) then sequence commands else ret tt.

Definition migrateUpFreshDb : M unit :=
  let tables := map (fun table => createTable table) schemaTables in
  _ <- sequence tables ;;
  _ <- populateFixtures ;;
  populateDefaults.

Definition reset : M unit :=
  let tables := rev (map (fun table => deleteTable table) schemaTables) in
  sequence tables.

(** [err.message], undefined on a bare string. *)
Definition err_message (err : js_err) : option string :=
  match err with
  | JError m => Some m
  | JString _ => None
  end.

(** [err === s] for a string literal [s]. *)
Definition strict_eq (err : js_err) (s : string) : bool :=
  match err with
  | JString x => String.eqb x s
  | JError _ => false
  end.

(** [err.message || err] *)
Definition message_or_self (err : js_err) : js_err :=
  match err with
  | JError (String _ _ as m) => JString m
  | _ => err
  end.

Definition init : M unit :=
  then2 getDatabaseVersion
    (fun databaseVersion =>
       defaultVersion <- getDefaultDatabaseVersion ;;
       if String.eqb databaseVersion defaultVersion then ret tt
       else if JS.str_lt databaseVersion defaultVersion then
         _ <- migrateUp ;; setDatabaseVersion
       else if JS.str_lt defaultVersion databaseVersion then
         logErrorAndExit "Your database is not compatible with this version of Ghost"
                         (JString "You will need to create a new database")
       else ret tt)
    (fun err =>
       if negb (falsy (err_message err)) || strict_eq err "Settings table does not exist"
       then migrateUpFreshDb
       else logErrorAndExit "There is a problem with the database" (message_or_self err)).

End Migration.

(** [errors.throwError] of the error-handling module wraps a string in
    an [Error] and throws it. *)
Definition throwError : string -> js_err := JError.

(** *** The other variant of [init]

    The second variant of the exports resolves the version in the same
    way and hands over to numbered migrations, which are files of their
    own and stay parameters here.  Its rejection handler compares the
    rejection itself with the expected string. *)

Module Versioned.
Section Exports.

Variable defaultSettings_core : list (string * string).
Variable thrown : string -> js_err.
Variable migrateUpFromVersion : string -> M unit.
Variable migrateUpFreshDb : M unit.

Definition init : M unit :=
  then2 (getDatabaseVersion thrown)
    (fun databaseVersion =>
       defaultVersion <- getDefaultDatabaseVersion defaultSettings_core ;;
       if String.eqb databaseVersion defaultVersion then ret tt
       else if JS.str_lt databaseVersion defaultVersion then
         migrateUpFromVersion databaseVersion
       else if JS.str_lt defaultVersion databaseVersion then
         logErrorAndExit "Your database is not compatible with this version of Ghost"
                         (JString "You will need to create a new database")
       else ret tt)
    (fun err =>
       if strict_eq err "Settings table does not exist"
       then migrateUpFreshDb
       else logErrorAndExit "There is a problem with the database" (message_or_self err)).

End Exports.
End Versioned.

(** ** Version markers *)

(** A well-formed version marker: exactly three decimal digits. *)
Definition is_version (v : string) : bool :=
  Nat.eqb (String.length v) 3 && JS.all_chars JS.is_digit v.

(** The number a marker denotes. *)
Definition version_number (v : string) : Z := JS.digits_val 0 v.

Definition digits10 : list ascii :=
  ["0"; "1"; "2"; "3"; "4"; "5"; "6"; "7"; "8"; "9"]%char.

Definition all_versions : list string :=
  flat_map (fun a =>
    flat_map (fun b =>
      map (fun c => String a (String b (String c EmptyString))) digits10)
      digits10)
    digits10.

(** ** Vocabulary of the statements *)

Local Open Scope list_scope.

Definition drop_events (t : string) : list event :=
  [Issued (DropTableIfExists t); Fulfilled (DropTableIfExists t)].

Definition create_events (t : string) : list event :=
  [Issued (CreateTable t); Fulfilled (CreateTable t)].

(** The events of [createTable] and [deleteTable]. *)
Definition is_table_op (e : event) : bool :=
  match e with
  | Issued (CreateTable _) | Fulfilled (CreateTable _) | Refused (CreateTable _)
  | Issued (DropTableIfExists _) | Fulfilled (DropTableIfExists _)
  | Refused (DropTableIfExists _) => true
  | _ => false
  end.

(** The columns [checkMySQLPostTable] finds too narrow. *)
Definition to_widen (entries : list (string * string)) : list query :=
  map (fun entry => alter_posts (fst entry))
      (filter (fun entry => negb (String.eqb (JS.toLowerCase (snd entry)) "mediumtext"))
              entries).

Definition show_fields : query :=
  Raw "SHOW FIELDS FROM posts where Field ='html' OR Field = 'markdown'".

(** The command list [migrateUp] builds and runs: the deletions, then the
    additions. *)
Definition migrate_commands (schemaTables oldTables : list string) : list (M unit) :=
  map (fun table => deleteTable table) (difference oldTables schemaTables)
  ++ map (fun table => createTable table) (difference schemaTables oldTables).

(** The world after the two reads of [getDatabaseVersion]: nothing but
    the trace has changed. *)
Definition probed (selected : bool) (w : world) : world :=
  mkWorld (db w) (defaultDatabaseVersion w) (inflight w)
          (if selected
           then (((trace w ++ [Issued (HasTable "settings")])
                    ++ [Fulfilled (HasTable "settings")])
                   ++ [Issued SelectVersions]) ++ [Fulfilled SelectVersions]
           else (trace w ++ [Issued (HasTable "settings")])
                  ++ [Fulfilled (HasTable "settings")]).

Definition too_new : event :=
  LogErrorAndExit "Your database is not compatible with this version of Ghost"
                  (JString "You will need to create a new database").

(** ** Sample configuration and databases *)

Definition sample_tables : list string :=
  ["posts"; "users"; "roles"; "settings"; "tags"].

Definition sample_defaults : list (string * string) :=
  [("databaseVersion", "004"); ("dbHash", "none")].

(** An installation at version 003 that still carries the legacy marker,
    a table the Registry no longer declares, and a posts.html column of
    type text. *)
Definition outdated_db : database :=
  mkDatabase ["posts"; "settings"; "old_widgets"]
             [("databaseVersion", Some "003"); ("currentVersion", Some "002")]
             [("id", "int(11)"); ("html", "text"); ("markdown", "mediumtext")].

Definition boot (d : database) : world := mkWorld d None [] [].

Ltac nodup_strings :=
  repeat constructor; cbn [In]; intuition discriminate.

Definition markers_db (rows : list (string * option string)) : database :=
  mkDatabase ["posts"; "settings"] rows [].

(** ** The aggregation loops of the numbered migrations

    [migrateUpFromVersion] and [migrateDownFromVersion] of the second
    variant first collect, in a synchronous loop, the versions whose
    migration they will run. *)

(** [while (currVersion !== stop) { versions.push(currVersion);
    currVersion = next(currVersion); }]; [None] when [fuel] rounds have
    not reached [stop]. *)
Fixpoint aggregate_versions (next : string -> string) (fuel : nat)
  (currVersion stop : string) {struct fuel} : option (list string) :=
  if String.eqb currVersion stop then Some []
  else match fuel with
       | O => None
       | S f =>
           option_map (cons currVersion)
                      (aggregate_versions next f (next currVersion) stop)
       end.

(** The versions of [migrateUpFromVersion(version, max)], where
    [defaultVersion] is what [getDefaultDatabaseVersion()] returns:
    [maxVersion = max || this.getVersionAfter(getDefaultDatabaseVersion())]. *)
Definition versions_up (fuel : nat) (version : string) (max : option string)
  (defaultVersion : string) : option (list string) :=
  let maxVersion := match max with
                    | Some (String _ _ as m) => m
                    | _ => getVersionAfter defaultVersion
                    end in
  aggregate_versions getVersionAfter fuel version maxVersion.

(** The versions of [migrateDownFromVersion(version)]:
    [minVersion = this.getVersionBefore(initialVersion)]. *)
Definition versions_down (fuel : nat) (version : string) : option (list string) :=
  let minVersion := getVersionBefore initialVersion in
  aggregate_versions getVersionBefore fuel version minVersion.

(** The marker of a number: printed and padded. *)
Definition version_of (k : nat) : string := pad (JS.String_of (Z.of_nat k)).

Definition resolver_reads : list event :=
  [Issued (HasTable "settings"); Fulfilled (HasTable "settings");
   Issued SelectVersions; Fulfilled SelectVersions].

Definition loader_events : list event :=
  [Issued PopulateFixtures; Fulfilled PopulateFixtures;
   Issued PopulateDefaults; Fulfilled PopulateDefaults].

(** The events of the raw queries: enumeration, check and repair. *)
Definition is_raw (e : event) : bool :=
  match e with
  | Issued (Raw _) | Fulfilled (Raw _) | Refused (Raw _) => true
  | _ => false
  end.

(** The enumeration query of an engine and what it makes of the live
    tables. *)
Definition supported (client : string) : bool :=
  String.eqb client "sqlite3" || String.eqb client "mysql" || String.eqb client "pg".

Definition listing_sql (client : string) : string :=
  if String.eqb client "sqlite3"
  then "select * from sqlite_master where type = 'table'"
  else if String.eqb client "mysql" then "show tables"
  else "SELECT table_name FROM information_schema.tables WHERE table_schema = 'public'".

Definition enumerated (client : string) (live : list string) : list string :=
  if String.eqb client "sqlite3"
  then filter (fun name => negb (String.eqb name "sqlite_sequence")) live
  else live.

Definition listed (client : string) (w : world) : world :=
  mkWorld (db w) (defaultDatabaseVersion w) (inflight w)
          ((trace w ++ [Issued (Raw (listing_sql client))])
             ++ [Fulfilled (Raw (listing_sql client))]).

(** * Properties *)

(** ** Strings and numbers *)

Lemma is_digit_In (c : ascii) : JS.is_digit c = true -> In c digits10.
Proof.
  destruct c as [[] [] [] [] [] [] [] []]; intro H;
    try discriminate H; simpl; tauto.
Qed.

Lemma is_digit_code (c : ascii) :
  JS.is_digit c = true <-> (48 <= JS.code c <= 57)%N.
Proof.
  unfold JS.is_digit. rewrite andb_true_iff, !N.leb_le. tauto.
Qed.

Lemma is_version_In (v : string) : is_version v = true -> In v all_versions.
Proof.
  unfold is_version.
  destruct v as [|a [|b [|c [|d r]]]]; try discriminate; simpl JS.all_chars.
  rewrite !andb_true_iff. intros (_ & Ha & Hb & Hc & _).
  apply is_digit_In in Ha, Hb, Hc.
  unfold all_versions.
  apply in_flat_map. exists a. split; [exact Ha|].
  apply in_flat_map. exists b. split; [exact Hb|].
  apply in_map_iff. exists c. split; [reflexivity|exact Hc].
Qed.

(** A boolean property checked on the thousand markers holds of each. *)
Lemma all_versions_ind (P : string -> bool) :
  forallb P all_versions = true ->
  forall v, is_version v = true -> P v = true.
Proof.
  intros H v Hv. rewrite forallb_forall in H. apply H, is_version_In, Hv.
Qed.

Lemma range_ind (P : Z -> bool) (k : nat) :
  forallb P (map Z.of_nat (seq 0 k)) = true ->
  forall n, (0 <= n < Z.of_nat k)%Z -> P n = true.
Proof.
  intros H n Hn. rewrite forallb_forall in H. apply H.
  apply in_map_iff. exists (Z.to_nat n). split; [lia|].
  apply in_seq. lia.
Qed.

Lemma version_parseInt (v : string) :
  is_version v = true -> JS.parseInt v = Some (version_number v).
Proof.
  intro Hv.
  apply (all_versions_ind
           (fun v => match JS.parseInt v with
                     | Some n => Z.eqb n (version_number v)
                     | None => false
                     end)) in Hv; [|vm_compute; reflexivity].
  destruct (JS.parseInt v); [|discriminate].
  apply Z.eqb_eq in Hv. now subst.
Qed.

Lemma version_numeric (v : string) : is_version v = true -> JS.isNaN v = false.
Proof.
  intro Hv.
  apply (all_versions_ind (fun v => negb (JS.isNaN v))) in Hv;
    [|vm_compute; reflexivity].
  now apply negb_true_iff in Hv.
Qed.

Lemma version_number_range (v : string) :
  is_version v = true -> (0 <= version_number v <= 999)%Z.
Proof.
  intro Hv.
  apply (all_versions_ind
           (fun v => Z.leb 0 (version_number v) && Z.leb (version_number v) 999)) in Hv;
    [|vm_compute; reflexivity].
  apply andb_true_iff in Hv. destruct Hv as [H1 H2].
  apply Z.leb_le in H1, H2. lia.
Qed.

(** Printing and padding the number of a marker gives the marker back. *)
Lemma version_pad_number (v : string) :
  is_version v = true -> pad (JS.String_of (version_number v)) = v.
Proof.
  intro Hv.
  apply (all_versions_ind
           (fun v => String.eqb (pad (JS.String_of (version_number v))) v)) in Hv;
    [|vm_compute; reflexivity].
  now apply String.eqb_eq in Hv.
Qed.

Lemma version_number_inj (a b : string) :
  is_version a = true -> is_version b = true ->
  version_number a = version_number b -> a = b.
Proof.
  intros Ha Hb E.
  rewrite <- (version_pad_number a Ha), <- (version_pad_number b Hb), E.
  reflexivity.
Qed.

Lemma str_lt_irrefl (a : string) : JS.str_lt a a = false.
Proof.
  induction a as [|x a IH]; simpl; [reflexivity|].
  now rewrite N.ltb_irrefl.
Qed.

Lemma str_lt_asym (a b : string) :
  JS.str_lt a b = true -> JS.str_lt b a = false.
Proof.
  revert b. induction a as [|x a IH]; intros [|y b]; simpl; try easy.
  destruct (N.ltb_spec (JS.code x) (JS.code y)) as [Hxy|Hxy].
  - intros _. destruct (N.ltb_spec (JS.code y) (JS.code x)); [lia|reflexivity].
  - destruct (N.ltb_spec (JS.code y) (JS.code x)) as [Hyx|Hyx]; [easy|].
    apply IH.
Qed.

Lemma str_lt_neq (a b : string) : JS.str_lt a b = true -> String.eqb a b = false.
Proof.
  intro H. apply String.eqb_neq. intros ->.
  rewrite str_lt_irrefl in H. discriminate.
Qed.

(** On three-digit markers the order of strings is the order of numbers. *)
Lemma version_str_lt (a b : string) :
  is_version a = true -> is_version b = true ->
  JS.str_lt a b = (version_number a <? version_number b)%Z.
Proof.
  unfold is_version, version_number.
  destruct a as [|a1 [|a2 [|a3 [|a4 a]]]]; try discriminate.
  destruct b as [|b1 [|b2 [|b3 [|b4 b]]]]; try discriminate.
  simpl JS.all_chars. rewrite !andb_true_iff, !is_digit_code.
  intros (_ & A1 & A2 & A3 & _) (_ & B1 & B2 & B3 & _).
  cbn [JS.str_lt JS.digits_val]. unfold JS.digit_val.
  repeat match goal with
         | |- context [N.ltb ?x ?y] => destruct (N.ltb_spec x y)
         end;
    symmetry; first [apply Z.ltb_lt; lia | apply Z.ltb_ge; lia].
Qed.

(** The padding loop has run to its end: three rounds are enough. *)
Lemma pad_length (v : string) : 3 <= String.length (pad v).
Proof.
  unfold pad. cbn [pad_loop].
  repeat match goal with
         | |- context [Nat.ltb ?x ?y] => destruct (Nat.ltb_spec x y)
         end; cbn [String.length] in *; lia.
Qed.

Lemma pad_String_of_range (n : Z) :
  (0 <= n <= 999)%Z ->
  is_version (pad (JS.String_of n)) = true
  /\ JS.parseInt (pad (JS.String_of n)) = Some n.
Proof.
  intro Hn.
  pose (P := fun n => is_version (pad (JS.String_of n))
                      && match JS.parseInt (pad (JS.String_of n)) with
                         | Some m => Z.eqb m n
                         | None => false
                         end).
  assert (H : P n = true).
  { apply (range_ind P 1000); [vm_compute; reflexivity|lia]. }
  unfold P in H. apply andb_true_iff in H. destruct H as [H1 H2].
  split; [exact H1|].
  destruct (JS.parseInt (pad (JS.String_of n))); [|discriminate].
  apply Z.eqb_eq in H2. now subst.
Qed.

(** C7. For every three-digit version [v] other than the boundary value
    "000", [getVersionAfter (getVersionBefore v)] is [v]; and whenever the
    number [getVersionAfter] or [getVersionBefore] arrives at lies in
    0..999, the padded result is exactly three digits (and denotes that
    number). *)
Theorem getVersionAfter_getVersionBefore :
  (forall v, is_version v = true -> v <> "000" ->
             getVersionAfter (getVersionBefore v) = v)
  /\ (forall v, (0 <= parse_or_initial v + 1 <= 999)%Z ->
                is_version (getVersionAfter v) = true
                /\ JS.parseInt (getVersionAfter v) = Some (parse_or_initial v + 1)%Z)
  /\ (forall v, (0 <= parse_or_initial v - 1 <= 999)%Z ->
                is_version (getVersionBefore v) = true
                /\ JS.parseInt (getVersionBefore v) = Some (parse_or_initial v - 1)%Z).
Proof.
  split; [|split].
  - intros v Hv Hne.
    apply (all_versions_ind
             (fun v => String.eqb v "000"
                       || String.eqb (getVersionAfter (getVersionBefore v)) v)) in Hv;
      [|vm_compute; reflexivity].
    apply orb_true_iff in Hv. destruct Hv as [Hv|Hv]; apply String.eqb_eq in Hv.
    + contradiction.
    + exact Hv.
  - intros v Hn. unfold getVersionAfter. now apply pad_String_of_range.
  - intros v Hn. unfold getVersionBefore. now apply pad_String_of_range.
Qed.

Lemma getVersionAfter_getVersionBefore_witness :
  getVersionAfter (getVersionBefore "004") = "004"
  /\ is_version (getVersionAfter "998") = true
  /\ is_version (getVersionBefore "001") = true.
Proof.
  split; [|split].
  - apply (proj1 getVersionAfter_getVersionBefore "004"); [reflexivity|discriminate].
  - apply (proj1 (proj2 getVersionAfter_getVersionBefore) "998"). vm_compute.
    split; discriminate.
  - apply (proj2 (proj2 getVersionAfter_getVersionBefore) "001"). vm_compute.
    split; discriminate.
Defined.

(** At the boundary the round trip fails: the predecessor of "000" is
    printed as "0-1". *)
Example getVersionBefore_initial :
  getVersionBefore "000" = "0-1"
  /\ getVersionAfter (getVersionBefore "000") = "001".
Proof. split; reflexivity. Qed.

(** ** Sequences of table operations *)

Lemma mem_In (x : string) (l : list string) : mem x l = true <-> In x l.
Proof.
  unfold mem. rewrite existsb_exists. split.
  - intros (y & Hy & E). apply String.eqb_eq in E. now subst.
  - intro H. exists x. split; [exact H|apply String.eqb_refl].
Qed.

Lemma mem_false (x : string) (l : list string) : mem x l = false <-> ~ In x l.
Proof.
  rewrite <- mem_In. destruct (mem x l); split; intro H; try easy.
Qed.

Lemma difference_In (xs ys : list string) (t : string) :
  In t (difference xs ys) <-> In t xs /\ ~ In t ys.
Proof.
  unfold difference. rewrite filter_In, negb_true_iff, mem_false. tauto.
Qed.

Lemma difference_NoDup (xs ys : list string) : NoDup xs -> NoDup (difference xs ys).
Proof. apply NoDup_filter. Qed.

Lemma difference_nil (ys : list string) : difference [] ys = [].
Proof. reflexivity. Qed.

Lemma difference_from_nil (xs : list string) : difference xs [] = xs.
Proof.
  unfold difference. induction xs as [|x xs IH]; [reflexivity|].
  cbn [filter mem existsb negb]. now f_equal.
Qed.

Lemma sequence_app (a b : list (M unit)) (w : world) :
  sequence (a ++ b) w = (_ <- sequence a ;; sequence b) w.
Proof.
  revert w. induction a as [|task a IH]; intro w; cbn [app sequence].
  - reflexivity.
  - unfold bind. destruct (task w) as [[[]| |] w1]; try reflexivity.
    rewrite IH. reflexivity.
Qed.

Lemma filter_dropped (t : string) (l xs : list string) :
  filter (fun x => negb (mem x l)) (filter (fun x => negb (String.eqb x t)) xs)
  = filter (fun x => negb (mem x (t :: l))) xs.
Proof.
  induction xs as [|x xs IH]; [reflexivity|].
  cbn [filter]. change (mem x (t :: l)) with (String.eqb x t || mem x l).
  destruct (String.eqb x t); cbn [negb orb filter]; [exact IH|].
  destruct (mem x l); cbn [negb]; [|f_equal]; exact IH.
Qed.

(** Dropping never fails: the whole list is run. *)
Lemma sequence_deleteTable (l : list string) (w : world) :
  exists w',
    sequence (map (fun table => deleteTable table) l) w = (Resolved tt, w')
    /\ trace w' = trace w ++ flat_map drop_events l
    /\ inflight w' = inflight w
    /\ defaultDatabaseVersion w' = defaultDatabaseVersion w
    /\ tables (db w') = filter (fun x => negb (mem x l)) (tables (db w))
    /\ settings (db w') = (if mem "settings" l then [] else settings (db w))
    /\ (mem "posts" l = false -> posts_fields (db w') = posts_fields (db w)).
Proof.
  revert w. induction l as [|t l IH]; intro w.
  - exists w. simpl. rewrite app_nil_r. repeat split; try reflexivity.
    induction (tables (db w)) as [|x xs IHx]; simpl; [reflexivity|now rewrite <- IHx].
  - cbn [map sequence]. unfold bind.
    unfold deleteTable at 1, await at 1, answer_dropTableIfExists at 1.
    cbn [db log set_db].
    match goal with
    | |- context [sequence _ ?w1] => destruct (IH w1) as (w' & E & Ht & Hi & Hd & Htab & Hs & Hp)
    end.
    exists w'. split; [exact E|].
    cbn [trace inflight defaultDatabaseVersion db tables settings posts_fields log set_db]
      in Ht, Hi, Hd, Htab, Hs, Hp.
    repeat split.
    + rewrite Ht. cbn [flat_map drop_events]. rewrite <- !app_assoc. reflexivity.
    + exact Hi.
    + exact Hd.
    + rewrite Htab. apply filter_dropped.
    + rewrite Hs.
      change (mem "settings" (t :: l)) with (String.eqb "settings" t || mem "settings" l).
      rewrite (String.eqb_sym "settings" t).
      destruct (String.eqb t "settings"); cbn [orb]; [|reflexivity].
      now destruct (mem "settings" l).
    + change (mem "posts" (t :: l)) with (String.eqb "posts" t || mem "posts" l).
      rewrite (String.eqb_sym "posts" t). intro H.
      apply orb_false_iff in H. destruct H as [H1 H2].
      rewrite (Hp H2), H1. reflexivity.
Qed.

(** A run of creations that resolved has run the whole list. *)
Lemma sequence_createTable (l : list string) (w w' : world) :
  sequence (map (fun table => createTable table) l) w = (Resolved tt, w') ->
  trace w' = trace w ++ flat_map create_events l
  /\ inflight w' = inflight w
  /\ defaultDatabaseVersion w' = defaultDatabaseVersion w
  /\ tables (db w') = tables (db w) ++ l
  /\ settings (db w') = settings (db w)
  /\ posts_fields (db w') = posts_fields (db w).
Proof.
  revert w. induction l as [|t l IH]; intro w.
  - simpl. intro E. injection E as <-. rewrite !app_nil_r. repeat split.
  - cbn [map sequence]. unfold bind.
    unfold createTable at 1, await at 1, answer_createTable at 1.
    cbn [db log set_db].
    destruct (mem t (tables (db w))); [discriminate|].
    intro E. apply IH in E.
    cbn [trace inflight defaultDatabaseVersion db tables settings posts_fields log set_db] in E.
    destruct E as (Ht & Hi & Hd & Htab & Hs & Hp).
    repeat split; try assumption.
    + rewrite Ht. cbn [flat_map create_events]. rewrite <- !app_assoc. reflexivity.
    + rewrite Htab, <- app_assoc. reflexivity.
Qed.

(** Creating tables that are not there, each once, resolves. *)
Lemma sequence_createTable_resolves (l : list string) (w : world) :
  NoDup l -> (forall t, In t l -> ~ In t (tables (db w))) ->
  exists w', sequence (map (fun table => createTable table) l) w = (Resolved tt, w').
Proof.
  revert w. induction l as [|t l IH]; intros w Hnd Hfresh.
  - exists w. reflexivity.
  - cbn [map sequence]. unfold bind.
    unfold createTable at 1, await at 1, answer_createTable at 1.
    cbn [db log set_db].
    assert (Hm : mem t (tables (db w)) = false).
    { apply mem_false, Hfresh. now left. }
    rewrite Hm. apply IH.
    + now inversion Hnd.
    + intros x Hx. cbn [db tables log set_db]. rewrite in_app_iff.
      intros [H|[<-|[]]].
      * revert H. apply Hfresh. now right.
      * inversion Hnd. contradiction.
Qed.

(** C8. [reset] issues one [dropTableIfExists] per Registry table, in the
    reverse of the declaration order, each started only after the one
    before it was fulfilled; nothing else is issued, in particular no
    write to the version marker. *)
Theorem reset_drops_in_reverse_order (schemaTables : list string) (w : world) :
  exists w',
    reset schemaTables w = (Resolved tt, w')
    /\ trace w' = trace w ++ flat_map drop_events (rev schemaTables)
    /\ inflight w' = inflight w
    /\ (forall v, ~ In (Issued (UpdateVersion v))
                       (flat_map drop_events (rev schemaTables))).
Proof.
  unfold reset. rewrite <- map_rev.
  destruct (sequence_deleteTable (rev schemaTables) w)
    as (w' & E & Ht & Hi & _).
  exists w'. repeat split; try assumption.
  intros v H. apply in_flat_map in H. destruct H as (t & _ & H).
  simpl in H. intuition discriminate.
Qed.

(** ** The engine adapter *)

Lemma getTables_resolved (client : string) (w w0 : world) (old : list string) :
  getTables client w = (Resolved old, w0) ->
  db w0 = db w /\ inflight w0 = inflight w
  /\ defaultDatabaseVersion w0 = defaultDatabaseVersion w
  /\ (exists sql, trace w0 = trace w ++ [Issued (Raw sql); Fulfilled (Raw sql)])
  /\ (old = tables (db w)
      \/ old = filter (fun name => negb (String.eqb name "sqlite_sequence"))
                      (tables (db w))).
Proof.
  unfold getTables, getTablesFromSqlite3, getTablesFromMySQL, getTablesFromPgSQL,
    bind, await, answer_listTables, ret, throw.
  cbn [db log set_db].
  destruct (String.eqb client "sqlite3");
    [|destruct (String.eqb client "mysql");
      [|destruct (String.eqb client "pg"); [|discriminate]]];
    intro E; injection E as <- <-;
    cbn [db inflight defaultDatabaseVersion trace log set_db];
    rewrite <- app_assoc; repeat split; eauto;
    eexists; reflexivity.
Qed.

(** Every ALTER is issued and none is waited for: when the entries have
    been gone through, all of them are still in flight. *)
Lemma check_entries_detaches (entries : list (string * string)) (w : world) :
  exists arr w1,
    check_entries entries w = (Resolved arr, w1)
    /\ db w1 = db w
    /\ defaultDatabaseVersion w1 = defaultDatabaseVersion w
    /\ inflight w1 = inflight w ++ to_widen entries
    /\ trace w1 = trace w ++ map Issued (to_widen entries).
Proof.
  revert w. induction entries as [|entry rest IH]; intro w.
  - exists [], w. cbn. rewrite !app_nil_r. repeat split.
  - cbn [check_entries]. unfold to_widen. cbn [filter].
    destruct (negb (String.eqb (JS.toLowerCase (snd entry)) "mediumtext")).
    + unfold bind at 1 2. unfold detach at 1. cbn [db log].
      unfold ret at 1.
      match goal with
      | |- context [bind (check_entries rest) ?k ?w1] =>
          destruct (IH w1) as (arr & w2 & E & Hdb & Hc & Hi & Ht)
      end.
      unfold bind. rewrite E. unfold ret.
      eexists _, w2. split; [reflexivity|].
      cbn [db defaultDatabaseVersion inflight trace log] in Hdb, Hc, Hi, Ht.
      cbn [map]. fold (to_widen rest).
      rewrite Hi, Ht, <- !app_assoc. repeat split; assumption.
    + unfold bind at 1. unfold ret at 1.
      destruct (IH w) as (arr & w2 & E & Hdb & Hc & Hi & Ht).
      unfold bind. rewrite E. unfold ret.
      eexists _, w2. split; [reflexivity|].
      fold (to_widen rest). repeat split; assumption.
Qed.

Lemma checkMySQLPostTable_resolved (w w1 : world) (arr : list (option query)) :
  checkMySQLPostTable w = (Resolved arr, w1) ->
  exists entries,
    answer_showFields (db w) = inr (entries, db w)
    /\ db w1 = db w
    /\ defaultDatabaseVersion w1 = defaultDatabaseVersion w
    /\ inflight w1 = inflight w ++ to_widen entries
    /\ trace w1 = trace w ++ [Issued show_fields; Fulfilled show_fields]
                          ++ map Issued (to_widen entries).
Proof.
  unfold checkMySQLPostTable, bind, await. cbn [db log set_db].
  unfold answer_showFields.
  destruct (mem "posts" (tables (db w))); [|discriminate].
  match goal with
  | |- context [check_entries ?es ?w0] =>
      destruct (check_entries_detaches es w0) as (arr' & w2 & E & Hdb & Hc & Hi & Ht);
        rewrite E; intro H; exists es
  end.
  injection H as <- <-.
  cbn [db defaultDatabaseVersion inflight trace log set_db] in Hdb, Hc, Hi, Ht.
  rewrite Ht, <- !app_assoc. repeat split; assumption.
Qed.

Lemma no_table_op_Issued_Raw (qs : list query) :
  (forall q, In q qs -> exists sql, q = Raw sql) ->
  forallb (fun e => negb (is_table_op e)) (map Issued qs) = true.
Proof.
  intro H. apply forallb_forall. intros e He.
  apply in_map_iff in He. destruct He as (q & <- & Hq).
  destruct (H q Hq) as (sql & ->). reflexivity.
Qed.

Lemma to_widen_Raw (entries : list (string * string)) (q : query) :
  In q (to_widen entries) -> exists sql, q = Raw sql.
Proof.
  unfold to_widen. intro H. apply in_map_iff in H.
  destruct H as (entry & <- & _). unfold alter_posts. eauto.
Qed.

(** ** migrateUp *)

Lemma migrateUp_steps (client : string) (schemaTables : list string) (w : world) :
  migrateUp client schemaTables w =
  match getTables client w with
  | (Resolved oldTables, w0) =>
      match (if negb (isEmpty oldTables) && String.eqb client "mysql"
             then checkMySQLPostTable w0 else (Resolved [], w0)) with
      | (Resolved _, w1) => sequence (migrate_commands schemaTables oldTables) w1
      | (Rejected e, w1) => (Rejected e, w1)
      | (Exited, w1) => (Exited, w1)
      end
  | (Rejected e, w0) => (Rejected e, w0)
  | (Exited, w0) => (Exited, w0)
  end.
Proof.
  unfold migrateUp. unfold bind at 1 2.
  destruct (getTables client w) as [[oldTables|e|] w0]; try reflexivity.
  assert (Hrun : forall w1,
             (let deleteCommands := getDeleteCommands oldTables schemaTables in
              let addCommands := getAddCommands oldTables schemaTables in
              let commands := [] in
              let commands := if negb (isEmpty_commands deleteCommands)
                              then concat_commands commands deleteCommands
                              else commands in
              let commands := if negb (isEmpty_commands addCommands)
                              then concat_commands commands addCommands
                              else commands in
              if negb (isEmpty commands) then sequence commands else ret tt) w1
             = sequence (migrate_commands schemaTables oldTables) w1).
  { intro w1. unfold getDeleteCommands, getAddCommands, migrate_commands.
    destruct (difference oldTables schemaTables) as [|d ds];
      destruct (difference schemaTables oldTables) as [|a adds];
      cbn [isEmpty negb isEmpty_commands concat_commands map app];
      rewrite ?app_nil_r; reflexivity. }
  destruct (negb (isEmpty oldTables) && String.eqb client "mysql").
  - unfold bind. destruct (checkMySQLPostTable w0) as [[arr|e|] w1]; try reflexivity.
    unfold ret. apply Hrun.
  - unfold ret. apply Hrun.
Qed.

Lemma migrate_commands_resolved (schemaTables oldTables : list string) (w w' : world) :
  sequence (migrate_commands schemaTables oldTables) w = (Resolved tt, w') ->
  trace w' = trace w
             ++ flat_map drop_events (difference oldTables schemaTables)
             ++ flat_map create_events (difference schemaTables oldTables)
  /\ inflight w' = inflight w
  /\ defaultDatabaseVersion w' = defaultDatabaseVersion w
  /\ tables (db w')
     = filter (fun x => negb (mem x (difference oldTables schemaTables))) (tables (db w))
       ++ difference schemaTables oldTables
  /\ settings (db w')
     = (if mem "settings" (difference oldTables schemaTables) then []
        else settings (db w)).
Proof.
  unfold migrate_commands. rewrite sequence_app. unfold bind.
  destruct (sequence_deleteTable (difference oldTables schemaTables) w)
    as (w1 & E & Ht & Hi & Hd & Htab & Hs & _).
  rewrite E. intro H. apply sequence_createTable in H.
  destruct H as (Ht' & Hi' & Hd' & Htab' & Hs' & _).
  rewrite Ht', Hi', Hd', Htab', Hs', Ht, Hi, Hd, Htab, Hs, <- app_assoc.
  repeat split.
Qed.

Lemma checkMySQLPostTable_resolves (w : world) :
  mem "posts" (tables (db w)) = true ->
  exists arr w1, checkMySQLPostTable w = (Resolved arr, w1) /\ db w1 = db w.
Proof.
  intro Hposts. unfold checkMySQLPostTable, bind, await, answer_showFields.
  cbn [db log set_db]. rewrite Hposts.
  match goal with
  | |- context [check_entries ?es ?w0] =>
      destruct (check_entries_detaches es w0) as (arr & w1 & E & Hdb & _)
  end.
  exists arr, w1. split; [exact E|exact Hdb].
Qed.

(** [migrateUp] resolves on every database the enumeration describes
    (on MySQL the check needs the posts table). *)
Lemma migrateUp_resolves (client : string) (schemaTables : list string)
  (w w0 : world) (oldTables : list string) :
  getTables client w = (Resolved oldTables, w0) ->
  (String.eqb client "mysql" = true -> oldTables <> [] ->
   mem "posts" (tables (db w)) = true) ->
  NoDup schemaTables ->
  ~ In "sqlite_sequence" schemaTables ->
  exists w', migrateUp client schemaTables w = (Resolved tt, w').
Proof.
  intros Hget Hposts Hnd Hseq.
  rewrite migrateUp_steps, Hget.
  apply getTables_resolved in Hget.
  destruct Hget as (Hdb & _ & _ & _ & Hold).
  assert (Hrun : forall w1, db w1 = db w ->
            exists w', sequence (migrate_commands schemaTables oldTables) w1
                       = (Resolved tt, w')).
  { intros w1 Hdb1. unfold migrate_commands.
    destruct (sequence_deleteTable (difference oldTables schemaTables) w1)
      as (w2 & E & _ & _ & _ & Htab & _).
    destruct (sequence_createTable_resolves (difference schemaTables oldTables) w2)
      as (w' & E').
    - now apply difference_NoDup.
    - intros t Ht. apply difference_In in Ht. destruct Ht as [Hs Hnot].
      rewrite Htab, Hdb1, filter_In. intros [Hlive _]. apply Hnot.
      destruct Hold as [->| ->]; [exact Hlive|].
      apply filter_In. split; [exact Hlive|].
      apply negb_true_iff, String.eqb_neq. intros ->. contradiction.
    - exists w'. rewrite sequence_app. unfold bind. rewrite E. exact E'. }
  destruct (negb (isEmpty oldTables) && String.eqb client "mysql") eqn:Hcheck.
  - apply andb_true_iff in Hcheck. destruct Hcheck as [Hne Hmysql].
    destruct (checkMySQLPostTable_resolves w0) as (arr & w1 & E & Hdb1).
    + rewrite Hdb. apply Hposts; [exact Hmysql|].
      intros ->. discriminate Hne.
    + rewrite E. apply Hrun. now rewrite Hdb1.
  - apply Hrun. exact Hdb.
Qed.

Lemma getTables_nil (client : string) (w w0 : world) (t : string) :
  getTables client w = (Resolved [], w0) ->
  In t (tables (db w)) -> t = "sqlite_sequence".
Proof.
  intros Hget Ht. apply getTables_resolved in Hget.
  destruct Hget as (_ & _ & _ & _ & [E|E]).
  - rewrite <- E in Ht. destruct Ht.
  - destruct (String.eqb t "sqlite_sequence") eqn:Et; [now apply String.eqb_eq|].
    assert (H : In t (filter (fun name => negb (String.eqb name "sqlite_sequence"))
                             (tables (db w)))).
    { apply filter_In. split; [exact Ht|]. now rewrite Et. }
    rewrite <- E in H. destruct H.
Qed.

(** C10. When the enumeration of the live tables resolves with the empty
    list, [migrateUp] goes from the enumeration straight to the table
    diff: after it, the only operations are one [createTable] per Registry
    table, in order; no repair query is issued or left in flight, whatever
    the engine, and every Registry table is live at the end. *)
Theorem migrateUp_without_live_tables
  (client : string) (schemaTables : list string) (w w0 : world) :
  getTables client w = (Resolved [], w0) ->
  NoDup schemaTables ->
  ~ In "sqlite_sequence" schemaTables ->
  exists w',
    migrateUp client schemaTables w = (Resolved tt, w')
    /\ trace w' = trace w0 ++ flat_map create_events schemaTables
    /\ inflight w' = inflight w
    /\ (forall t, In t schemaTables -> In t (tables (db w'))).
Proof.
  intros Hget Hnd Hseq.
  assert (Hfresh : forall t, In t schemaTables -> ~ In t (tables (db w))).
  { intros t Ht Hlive. apply (getTables_nil _ _ _ _ Hget) in Hlive.
    subst t. contradiction. }
  rewrite migrateUp_steps, Hget. cbn [isEmpty negb andb].
  unfold migrate_commands. rewrite difference_nil, difference_from_nil.
  cbn [map app].
  apply getTables_resolved in Hget. destruct Hget as (Hdb & Hi & _).
  destruct (sequence_createTable_resolves schemaTables w0 Hnd) as (w' & E).
  { now rewrite Hdb. }
  exists w'. split; [exact E|].
  apply sequence_createTable in E. destruct E as (Ht & Hi' & _ & Htab & _).
  rewrite Ht, Hi', Hi. split; [reflexivity|]. split; [reflexivity|].
  intros t Hin. rewrite Htab. apply in_or_app. now right.
Qed.

Lemma migrateUp_without_live_tables_witness :
  exists w',
    migrateUp "mysql" sample_tables (boot (mkDatabase [] [] [])) = (Resolved tt, w')
    /\ trace w' = [Issued (Raw "show tables"); Fulfilled (Raw "show tables")]
                  ++ flat_map create_events sample_tables
    /\ inflight w' = []
    /\ (forall t, In t sample_tables -> In t (tables (db w'))).
Proof.
  apply (migrateUp_without_live_tables "mysql" sample_tables
           (boot (mkDatabase [] [] []))
           (snd (getTables "mysql" (boot (mkDatabase [] [] []))))).
  - vm_compute. reflexivity.
  - unfold sample_tables. nodup_strings.
  - cbn [sample_tables In]. intuition discriminate.
Defined.

(** C9. On MySQL with a posts.html column of type text: the ALTER that
    widens the column is issued, but [migrateUp] goes on without waiting
    for it.  The deletion and the creations are issued and fulfilled
    while the ALTER has not settled; it is still in flight when
    [migrateUp] resolves. *)
Theorem migrateUp_mysql_repair_in_flight :
  migrateUp "mysql" sample_tables (boot outdated_db)
  = (Resolved tt,
     mkWorld
       (mkDatabase ["posts"; "settings"; "users"; "roles"; "tags"]
                   (settings outdated_db) (posts_fields outdated_db))
       None
       [alter_posts "html"]
       ([Issued (Raw "show tables"); Fulfilled (Raw "show tables");
         Issued show_fields; Fulfilled show_fields;
         Issued (alter_posts "html")]
        ++ drop_events "old_widgets"
        ++ create_events "users" ++ create_events "roles" ++ create_events "tags")).
Proof. reflexivity. Qed.

(** ** The version resolver *)

Lemma probed_trace (selected : bool) (w : world) :
  trace (probed selected w)
  = trace w ++ [Issued (HasTable "settings"); Fulfilled (HasTable "settings")]
            ++ (if selected then [Issued SelectVersions; Fulfilled SelectVersions]
                else []).
Proof.
  destruct selected; cbn [probed trace]; rewrite <- !app_assoc; reflexivity.
Qed.

Lemma getDatabaseVersion_steps (thrown : string -> js_err) (w : world) :
  getDatabaseVersion thrown w =
  if mem "settings" (tables (db w)) then
    match reduce_versions thrown (marker_values (db w)) (Some initialVersion) with
    | inl e => (Rejected e, probed true w)
    | inr databaseVersion =>
        (Resolved (match databaseVersion with
                   | Some (String _ _ as v) => v
                   | _ => initialVersion
                   end), probed true w)
    end
  else (Rejected (JError "Settings table does not exist"), probed false w).
Proof.
  unfold getDatabaseVersion, bind, await, answer_hasTable, answer_selectVersions,
    throw, ret, probed.
  cbn [db log set_db tables trace inflight defaultDatabaseVersion].
  destruct (mem "settings" (tables (db w))) eqn:Hs;
    cbn [db log set_db tables trace inflight defaultDatabaseVersion];
    [rewrite Hs|reflexivity].
  destruct (reduce_versions thrown (marker_values (db w)) (Some initialVersion));
    reflexivity.
Qed.

(** One row that is not numeric makes the whole resolution fail. *)
Lemma reduce_versions_rejects (thrown : string -> js_err)
  (versions : list (option string)) (memo : option string) :
  (exists v, In v versions /\ isNaN_value v = true) ->
  reduce_versions thrown versions memo
  = inl (thrown "Database version is not recognised").
Proof.
  revert memo. induction versions as [|value rest IH]; intros memo (v & Hin & Hv).
  - destruct Hin.
  - cbn [reduce_versions]. destruct (isNaN_value value) eqn:E; [reflexivity|].
    apply IH. exists v. destruct Hin as [->|Hin]; [congruence|tauto].
Qed.

Lemma getDatabaseVersion_rejects_non_numeric (thrown : string -> js_err) (w : world) :
  mem "settings" (tables (db w)) = true ->
  (exists v, In v (marker_values (db w)) /\ isNaN_value v = true) ->
  getDatabaseVersion thrown w
  = (Rejected (thrown "Database version is not recognised"), probed true w).
Proof.
  intros Hs Hv. rewrite getDatabaseVersion_steps, Hs.
  now rewrite (reduce_versions_rejects thrown _ _ Hv).
Qed.

Lemma parseInt_nonempty (s : string) (n : Z) :
  JS.parseInt s = Some n -> exists c r, s = String c r.
Proof.
  destruct s as [|c r]; [discriminate|eauto].
Qed.

(** The fold keeps the numerically greatest of the memo and the rows
    read so far. *)
Lemma reduce_versions_greatest (thrown : string -> js_err)
  (versions : list (option string)) (memo : string) (k : Z) :
  (forall v, In v versions -> isNaN_value v = false) ->
  JS.parseInt memo = Some k ->
  exists r n,
    reduce_versions thrown versions (Some memo) = inr (Some r)
    /\ JS.parseInt r = Some n
    /\ (k <= n)%Z
    /\ (r = memo \/ In (Some r) versions)
    /\ (forall s m, In (Some s) versions -> JS.parseInt s = Some m -> (m <= n)%Z).
Proof.
  revert memo k. induction versions as [|value rest IH]; intros memo k Hnum Hk.
  - exists memo, k. cbn [reduce_versions].
    split; [reflexivity|]. split; [exact Hk|]. split; [lia|].
    split; [now left|]. intros s m [].
  - cbn [reduce_versions]. rewrite (Hnum value (or_introl eq_refl)).
    assert (Hrest : forall v, In v rest -> isNaN_value v = false).
    { intros v Hv. apply Hnum. now right. }
    cbn [parseInt_value]. rewrite Hk.
    destruct value as [s|]; cbn [parseInt_value JS.num_gt].
    + destruct (JS.parseInt s) as [m|] eqn:Hm; cbn [JS.num_gt].
      * destruct (Z.ltb_spec k m) as [Hlt|Hge].
        -- destruct (IH s m Hrest Hm) as (r & n & E & Hr & Hle & Hwhere & Hmax).
           exists r, n. split; [exact E|]. split; [exact Hr|].
           split; [lia|]. split.
           ++ right. destruct Hwhere as [->|H]; [now left|now right].
           ++ intros s' m' [H|H] Hs'.
              ** injection H as ->. rewrite Hm in Hs'. injection Hs' as ->. exact Hle.
              ** eapply Hmax; eassumption.
        -- destruct (IH memo k Hrest Hk) as (r & n & E & Hr & Hle & Hwhere & Hmax).
           exists r, n. split; [exact E|]. split; [exact Hr|].
           split; [exact Hle|]. split.
           ++ destruct Hwhere as [->|H]; [now left|right; now right].
           ++ intros s' m' [H|H] Hs'.
              ** injection H as ->. rewrite Hm in Hs'. injection Hs' as ->. lia.
              ** eapply Hmax; eassumption.
      * destruct (IH memo k Hrest Hk) as (r & n & E & Hr & Hle & Hwhere & Hmax).
        exists r, n. split; [exact E|]. split; [exact Hr|].
        split; [exact Hle|]. split.
        -- destruct Hwhere as [->|H]; [now left|right; now right].
        -- intros s' m' [H|H] Hs'.
           ++ injection H as ->. congruence.
           ++ eapply Hmax; eassumption.
    + destruct (IH memo k Hrest Hk) as (r & n & E & Hr & Hle & Hwhere & Hmax).
      exists r, n. split; [exact E|]. split; [exact Hr|].
      split; [exact Hle|]. split.
      * destruct Hwhere as [->|H]; [now left|right; now right].
      * intros s' m' [H|H] Hs'; [discriminate|]. eapply Hmax; eassumption.
Qed.

Lemma getDatabaseVersion_greatest (thrown : string -> js_err) (w : world) :
  mem "settings" (tables (db w)) = true ->
  (forall v, In v (marker_values (db w)) -> isNaN_value v = false) ->
  exists v n,
    getDatabaseVersion thrown w = (Resolved v, probed true w)
    /\ JS.parseInt v = Some n
    /\ (0 <= n)%Z
    /\ (v = initialVersion \/ In (Some v) (marker_values (db w)))
    /\ (forall s m, In (Some s) (marker_values (db w)) ->
                    JS.parseInt s = Some m -> (m <= n)%Z)
    /\ (marker_values (db w) = [] -> v = initialVersion).
Proof.
  intros Hs Hnum.
  destruct (reduce_versions_greatest thrown (marker_values (db w)) initialVersion 0
              Hnum eq_refl)
    as (r & n & E & Hr & Hle & Hwhere & Hmax).
  exists r, n. rewrite getDatabaseVersion_steps, Hs, E.
  destruct (parseInt_nonempty r n Hr) as (c & r' & ->).
  repeat split; try assumption.
  intro Hnil. rewrite Hnil in Hwhere. destruct Hwhere as [H|[]]. exact H.
Qed.

(** On rows that are all three-digit markers, the resolved version is the
    value of a row and no row denotes a greater number. *)
Lemma getDatabaseVersion_greatest_of_markers (thrown : string -> js_err) (w : world) :
  mem "settings" (tables (db w)) = true ->
  marker_values (db w) <> [] ->
  (forall v, In v (marker_values (db w)) ->
             exists s, v = Some s /\ is_version s = true) ->
  exists v,
    getDatabaseVersion thrown w = (Resolved v, probed true w)
    /\ In (Some v) (marker_values (db w))
    /\ (forall s, In (Some s) (marker_values (db w)) ->
                  (version_number s <= version_number v)%Z).
Proof.
  intros Hs Hne Hmarkers.
  destruct (getDatabaseVersion_greatest thrown w Hs)
    as (v & n & E & Hv & Hpos & Hwhere & Hmax & _).
  { intros v Hv. destruct (Hmarkers v Hv) as (s & -> & Hver).
    now apply version_numeric. }
  assert (Hall : forall s, In (Some s) (marker_values (db w)) ->
                           is_version s = true /\ (version_number s <= n)%Z).
  { intros s Hin. destruct (Hmarkers _ Hin) as (s' & Es & Hver).
    injection Es as <-. split; [exact Hver|].
    apply (Hmax s); [exact Hin|now apply version_parseInt]. }
  destruct Hwhere as [->|Hin].
  - (* the memo '000' was kept: every row denotes 0, hence is '000' *)
    cbn in Hv. injection Hv as <-.
    destruct (marker_values (db w)) as [|first rest] eqn:Erows; [contradiction|].
    destruct (Hmarkers first (or_introl eq_refl)) as (s & -> & Hver).
    destruct (Hall s (or_introl eq_refl)) as [_ Hle].
    assert (s = initialVersion) as ->.
    { apply version_number_inj; [exact Hver|reflexivity|].
      apply version_number_range in Hver. cbn. lia. }
    exists initialVersion. split; [exact E|]. split; [now left|].
    intros s Hin. now apply Hall.
  - destruct (Hall v Hin) as [Hver _].
    rewrite (version_parseInt v Hver) in Hv. injection Hv as <-.
    exists v. split; [exact E|]. split; [exact Hin|].
    intros s Hs'. now apply Hall.
Qed.

(** C5. When the settings table exists and the rows keyed
    'databaseVersion' or 'currentVersion' hold three-digit version
    markers, [getDatabaseVersion] resolves with the numerically greatest
    of their values: the result is the value of such a row and no row
    denotes a greater number; it is '000' when there is no such row.
    With the rows '003' and '002' it resolves with '003'. *)
Theorem getDatabaseVersion_greatest_marker :
  (forall (thrown : string -> js_err) (w : world),
      mem "settings" (tables (db w)) = true ->
      (forall v, In v (marker_values (db w)) ->
                 exists s, v = Some s /\ is_version s = true) ->
      exists v,
        getDatabaseVersion thrown w = (Resolved v, probed true w)
        /\ is_version v = true
        /\ (marker_values (db w) = [] -> v = initialVersion)
        /\ (marker_values (db w) <> [] -> In (Some v) (marker_values (db w)))
        /\ (forall s, In (Some s) (marker_values (db w)) ->
                      (version_number s <= version_number v)%Z))
  /\ (forall thrown : string -> js_err,
         fst (getDatabaseVersion thrown
                (boot (markers_db [("databaseVersion", Some "003");
                                   ("currentVersion", Some "002")])))
         = Resolved "003").
Proof.
  split; [|reflexivity].
  intros thrown w Hs Hmarkers.
  destruct (marker_values (db w)) as [|first rest] eqn:Erows.
  - exists initialVersion. rewrite getDatabaseVersion_steps, Hs, Erows.
    split; [reflexivity|]. split; [reflexivity|]. split; [reflexivity|].
    split; [intro H; now contradiction H|intros s []].
  - assert (Hne : marker_values (db w) <> []) by (rewrite Erows; discriminate).
    rewrite <- Erows in Hmarkers.
    destruct (getDatabaseVersion_greatest_of_markers thrown w Hs Hne Hmarkers)
      as (v & E & Hin & Hmax).
    exists v. split; [exact E|].
    rewrite <- Erows. split.
    + destruct (Hmarkers _ Hin) as (s & Es & Hv). now injection Es as <-.
    + split; [intro H; now contradiction Hne|]. split; [intros _; exact Hin|exact Hmax].
Qed.

Lemma getDatabaseVersion_greatest_marker_witness :
  exists v,
    getDatabaseVersion throwError
      (boot (markers_db [("title", Some "Ghost"); ("currentVersion", Some "001");
                         ("databaseVersion", Some "002")]))
    = (Resolved v,
       probed true
         (boot (markers_db [("title", Some "Ghost"); ("currentVersion", Some "001");
                            ("databaseVersion", Some "002")])))
    /\ is_version v = true
    /\ In (Some v) [Some "001"; Some "002"].
Proof.
  destruct (proj1 getDatabaseVersion_greatest_marker throwError
              (boot (markers_db [("title", Some "Ghost"); ("currentVersion", Some "001");
                                 ("databaseVersion", Some "002")])))
    as (v & H1 & H2 & _ & H3 & _).
  - reflexivity.
  - cbn. intros v [<-|[<-|[]]]; eexists; split; reflexivity.
  - exists v. split; [exact H1|]. split; [exact H2|]. apply H3. discriminate.
Defined.

(** ** init *)

Lemma getDefaultDatabaseVersion_resolved
  (core : list (string * string)) (w w' : world) (d : string) :
  getDefaultDatabaseVersion core w = (Resolved d, w') ->
  db w' = db w /\ inflight w' = inflight w /\ trace w' = trace w
  /\ (d <> EmptyString -> defaultDatabaseVersion w' = Some d).
Proof.
  unfold getDefaultDatabaseVersion.
  destruct (defaultDatabaseVersion w) as [[|c r]|] eqn:Hc.
  - destruct (find _ core) as [setting|]; [|discriminate].
    intro E. injection E as <- <-. repeat split.
  - intro E. injection E as <- <-. repeat split. now rewrite Hc.
  - destruct (find _ core) as [setting|]; [|discriminate].
    intro E. injection E as <- <-. repeat split.
Qed.

(** The rejection handler of [init]: any [Error] object with a message
    is taken for a missing settings table. *)
Lemma init_error_object_bootstraps
  (client : string) (schemaTables : list string) (core : list (string * string))
  (thrown : string -> js_err) (w w1 : world) (c : ascii) (m : string) :
  getDatabaseVersion thrown w = (Rejected (JError (String c m)), w1) ->
  init client schemaTables core thrown w = migrateUpFreshDb schemaTables w1.
Proof.
  intro H. unfold init, then2. rewrite H. reflexivity.
Qed.

(** The other variant of [init] does report the same rejection to the
    error sink. *)
Lemma versioned_init_unrecognised_version_is_fatal
  (core : list (string * string)) (up : string -> M unit) (fresh : M unit)
  (w : world) :
  mem "settings" (tables (db w)) = true ->
  (exists v, In v (marker_values (db w)) /\ isNaN_value v = true) ->
  Versioned.init core throwError up fresh w
  = (Exited,
     log (LogErrorAndExit "There is a problem with the database"
                          (JString "Database version is not recognised"))
         (probed true w)).
Proof.
  intros Hs Hv. unfold Versioned.init, then2.
  rewrite (getDatabaseVersion_rejects_non_numeric throwError w Hs Hv).
  reflexivity.
Qed.

(** C1. A settings table whose marker is not numeric: the resolver
    rejects with the error 'Database version is not recognised', and
    [init] answers with the fresh-install path.  Tables are created until
    the creation of the existing settings table is refused; the error
    sink is never called and the process goes on. *)
Theorem init_bootstraps_on_unrecognised_version :
  init "sqlite3" sample_tables sample_defaults throwError
       (boot (mkDatabase ["settings"] [("databaseVersion", Some "abc")] []))
  = (Rejected (JError "table settings already exists"),
     mkWorld (mkDatabase ["settings"; "posts"; "users"; "roles"]
                         [("databaseVersion", Some "abc")] [])
             None []
             ([Issued (HasTable "settings"); Fulfilled (HasTable "settings");
               Issued SelectVersions; Fulfilled SelectVersions]
              ++ create_events "posts" ++ create_events "users"
              ++ create_events "roles"
              ++ [Issued (CreateTable "settings"); Refused (CreateTable "settings")])).
Proof. reflexivity. Qed.

(** C6. A legacy marker row that is not numeric: [getDatabaseVersion]
    rejects rather than fall back to '000', but nothing is logged and the
    process does not exit: [init] goes into the fresh-install path. *)
Theorem unrecognised_version_is_not_fatal :
  let w := boot (markers_db [("currentVersion", Some "v2")]) in
  let run := init "mysql" sample_tables sample_defaults throwError w in
  fst (getDatabaseVersion throwError w)
  = Rejected (JError "Database version is not recognised")
  /\ fst run = Rejected (JError "table posts already exists")
  /\ In (Issued (CreateTable "posts")) (trace (snd run))
  /\ (forall headline detail, ~ In (LogErrorAndExit headline detail) (trace (snd run))).
Proof.
  cbv zeta. split; [reflexivity|]. split; [reflexivity|]. split.
  - vm_compute. tauto.
  - intros headline detail. vm_compute. intuition discriminate.
Qed.

Lemma getDatabaseVersion_resolved (thrown : string -> js_err) (w w1 : world)
  (v : string) :
  getDatabaseVersion thrown w = (Resolved v, w1) ->
  w1 = probed true w /\ mem "settings" (tables (db w)) = true.
Proof.
  rewrite getDatabaseVersion_steps.
  destruct (mem "settings" (tables (db w))); [|discriminate].
  destruct (reduce_versions thrown (marker_values (db w)) (Some initialVersion));
    [discriminate|].
  intro E. injection E as _ <-. split; reflexivity.
Qed.

(** In the order [init] compares versions in, the order of strings: a
    resolved version above the default version ends the process. *)
Lemma init_refuses_greater_string
  (client : string) (schemaTables : list string) (core : list (string * string))
  (thrown : string -> js_err) (w w1 w2 : world) (current target : string) :
  getDatabaseVersion thrown w = (Resolved current, w1) ->
  getDefaultDatabaseVersion core w1 = (Resolved target, w2) ->
  JS.str_lt target current = true ->
  exists w',
    init client schemaTables core thrown w = (Exited, w')
    /\ db w' = db w
    /\ inflight w' = inflight w
    /\ trace w' = trace w
                  ++ [Issued (HasTable "settings"); Fulfilled (HasTable "settings");
                      Issued SelectVersions; Fulfilled SelectVersions; too_new].
Proof.
  intros Hget Hdef Hlt.
  unfold init, then2. rewrite Hget. unfold bind. rewrite Hdef.
  rewrite String.eqb_sym, (str_lt_neq _ _ Hlt), (str_lt_asym _ _ Hlt), Hlt.
  unfold logErrorAndExit. eexists. split; [reflexivity|].
  apply getDatabaseVersion_resolved in Hget. destruct Hget as [-> _].
  apply getDefaultDatabaseVersion_resolved in Hdef.
  destruct Hdef as (Hdb & Hi & Ht & _).
  cbn [db inflight trace log]. rewrite Hdb, Hi, Ht, probed_trace.
  cbn [probed db inflight]. rewrite <- !app_assoc. repeat split.
Qed.

(** C2. For every pair of resolved three-digit versions with the current
    version numerically greater than the default (target) version, [init]
    ends the process through the error sink; up to then it has issued the
    two reads of the resolver and nothing else (no table operation, no
    write), and the database is as it was. *)
Theorem init_refuses_newer_database
  (client : string) (schemaTables : list string) (core : list (string * string))
  (thrown : string -> js_err) (w w1 w2 : world) (current target : string) :
  getDatabaseVersion thrown w = (Resolved current, w1) ->
  getDefaultDatabaseVersion core w1 = (Resolved target, w2) ->
  is_version current = true ->
  is_version target = true ->
  (version_number target < version_number current)%Z ->
  exists w',
    init client schemaTables core thrown w = (Exited, w')
    /\ db w' = db w
    /\ inflight w' = inflight w
    /\ trace w' = trace w
                  ++ [Issued (HasTable "settings"); Fulfilled (HasTable "settings");
                      Issued SelectVersions; Fulfilled SelectVersions; too_new].
Proof.
  intros Hget Hdef Hc Ht Hgt.
  apply (init_refuses_greater_string client schemaTables core thrown w w1 w2
           current target Hget Hdef).
  rewrite (version_str_lt target current Ht Hc). now apply Z.ltb_lt.
Qed.

Lemma init_refuses_newer_database_witness :
  exists w',
    init "pg" sample_tables sample_defaults throwError
         (boot (markers_db [("databaseVersion", Some "005")]))
    = (Exited, w')
    /\ db w' = markers_db [("databaseVersion", Some "005")]
    /\ inflight w' = []
    /\ trace w' = [Issued (HasTable "settings"); Fulfilled (HasTable "settings");
                   Issued SelectVersions; Fulfilled SelectVersions; too_new].
Proof.
  apply (init_refuses_newer_database "pg" sample_tables sample_defaults throwError
           (boot (markers_db [("databaseVersion", Some "005")]))
           (snd (getDatabaseVersion throwError
                   (boot (markers_db [("databaseVersion", Some "005")]))))
           (snd (getDefaultDatabaseVersion sample_defaults
                   (snd (getDatabaseVersion throwError
                           (boot (markers_db [("databaseVersion", Some "005")]))))))
           "005" "004").
  - vm_compute. reflexivity.
  - vm_compute. reflexivity.
  - reflexivity.
  - reflexivity.
  - reflexivity.
Defined.

(** ** Writing the version marker *)

(** Rows that are all markers no greater than [d], one of them [d]
    itself: the fold ends on [d]. *)
Lemma reduce_versions_default (thrown : string -> js_err) (d : string)
  (versions : list (option string)) (memo : string) :
  is_version d = true -> is_version memo = true ->
  (version_number memo <= version_number d)%Z ->
  (forall v, In v versions ->
             exists s, v = Some s /\ is_version s = true
                       /\ (version_number s <= version_number d)%Z) ->
  memo = d \/ In (Some d) versions ->
  reduce_versions thrown versions (Some memo) = inr (Some d).
Proof.
  intro Hd. revert memo.
  induction versions as [|value rest IH]; intros memo Hm Hle Hall Hwhere.
  - destruct Hwhere as [->|[]]. reflexivity.
  - destruct (Hall value (or_introl eq_refl)) as (s & -> & Hs & Hsle).
    assert (Hrest : forall v, In v rest ->
                exists s, v = Some s /\ is_version s = true
                          /\ (version_number s <= version_number d)%Z).
    { intros v Hv. apply Hall. now right. }
    cbn [reduce_versions isNaN_value parseInt_value].
    rewrite (version_numeric s Hs), (version_parseInt s Hs), (version_parseInt memo Hm).
    cbn [JS.num_gt].
    destruct (Z.ltb_spec (version_number memo) (version_number s)) as [Hlt|Hge].
    + apply IH; try assumption.
      destruct Hwhere as [->|[E|H]]; [lia| |now right].
      injection E as ->. now left.
    + apply IH; try assumption.
      destruct Hwhere as [->|[E|H]]; [now left| |now right].
      injection E as ->. left.
      apply version_number_inj; try assumption. lia.
Qed.

Lemma marker_values_updated (d : database) (v : option string) :
  marker_values
    (mkDatabase (tables d)
       (map (fun r => if String.eqb (fst r) "databaseVersion" then (fst r, v) else r)
            (settings d))
       (posts_fields d))
  = map (fun r => if String.eqb (fst r) "databaseVersion" then v else snd r)
        (filter (fun r => is_version_key (fst r)) (settings d)).
Proof.
  unfold marker_values. cbn [settings].
  induction (settings d) as [|r rows IH]; [reflexivity|].
  cbn [map filter].
  destruct (String.eqb (fst r) "databaseVersion") eqn:E; cbn [fst].
  - assert (Hk : is_version_key (fst r) = true).
    { unfold is_version_key. now rewrite E. }
    rewrite Hk. cbn [map snd]. rewrite E. f_equal. exact IH.
  - destruct (is_version_key (fst r)); cbn [map]; [rewrite E; f_equal|]; exact IH.
Qed.

Lemma setDatabaseVersion_then_getDatabaseVersion
  (thrown : string -> js_err) (w : world) (d : string) :
  defaultDatabaseVersion w = Some d ->
  is_version d = true ->
  mem "settings" (tables (db w)) = true ->
  (exists v, In ("databaseVersion", v) (settings (db w))) ->
  (forall v, In ("currentVersion", v) (settings (db w)) ->
             exists s, v = Some s /\ is_version s = true
                       /\ (version_number s <= version_number d)%Z) ->
  exists w1,
    setDatabaseVersion w = (Resolved tt, w1)
    /\ getDatabaseVersion thrown w1 = (Resolved d, probed true w1).
Proof.
  intros Hc Hd Hs (v0 & Hrow) Hlegacy.
  unfold setDatabaseVersion, await, answer_updateVersion.
  cbn [db log set_db]. rewrite Hs, Hc.
  eexists. split; [reflexivity|].
  rewrite getDatabaseVersion_steps. cbn [db log set_db tables]. rewrite Hs.
  rewrite marker_values_updated.
  rewrite (reduce_versions_default thrown d); try assumption; try reflexivity.
  - destruct d; [discriminate|reflexivity].
  - apply version_number_range in Hd. cbn. lia.
  - intros v Hv. apply in_map_iff in Hv. destruct Hv as ([k x] & <- & Hin).
    apply filter_In in Hin. destruct Hin as [Hin Hkey]. cbn [fst snd] in *.
    destruct (String.eqb k "databaseVersion") eqn:E.
    + exists d. repeat split; [exact Hd|lia].
    + unfold is_version_key in Hkey. rewrite E in Hkey. cbn [orb] in Hkey.
      apply String.eqb_eq in Hkey. subst k. now apply Hlegacy.
  - right. apply in_map_iff. exists ("databaseVersion", v0). split; [reflexivity|].
    apply filter_In. split; [exact Hrow|reflexivity].
Qed.

(** What a resolved [migrateUp] leaves behind. *)
Lemma migrateUp_resolved (client : string) (schemaTables : list string)
  (w w' : world) :
  migrateUp client schemaTables w = (Resolved tt, w') ->
  exists oldTables,
    defaultDatabaseVersion w' = defaultDatabaseVersion w
    /\ tables (db w')
       = filter (fun x => negb (mem x (difference oldTables schemaTables)))
                (tables (db w))
         ++ difference schemaTables oldTables
    /\ settings (db w')
       = (if mem "settings" (difference oldTables schemaTables) then []
          else settings (db w)).
Proof.
  rewrite migrateUp_steps.
  destruct (getTables client w) as [[oldTables|e|] w0] eqn:Hget; try discriminate.
  apply getTables_resolved in Hget. destruct Hget as (Hdb0 & _ & Hc0 & _).
  intro Hrun. exists oldTables.
  destruct (negb (isEmpty oldTables) && String.eqb client "mysql").
  - destruct (checkMySQLPostTable w0) as [[arr|e|] w1] eqn:Hcheck; try discriminate.
    apply checkMySQLPostTable_resolved in Hcheck.
    destruct Hcheck as (entries & _ & Hdb1 & Hc1 & _).
    apply migrate_commands_resolved in Hrun.
    destruct Hrun as (_ & _ & Hc & Htab & Hs).
    rewrite Hc, Htab, Hs, Hc1, Hdb1, Hc0, Hdb0. repeat split.
  - apply migrate_commands_resolved in Hrun.
    destruct Hrun as (_ & _ & Hc & Htab & Hs).
    rewrite Hc, Htab, Hs, Hc0, Hdb0. repeat split.
Qed.

Lemma setDatabaseVersion_resolved (w w' : world) :
  setDatabaseVersion w = (Resolved tt, w') ->
  mem "settings" (tables (db w)) = true.
Proof.
  unfold setDatabaseVersion, await, answer_updateVersion. cbn [db log].
  destruct (mem "settings" (tables (db w))); [reflexivity|discriminate].
Qed.

(** A resolved upgrade has kept the settings table and its rows up to
    the write of the marker. *)
Lemma upgrade_keeps_settings (client : string) (schemaTables : list string)
  (w w3 w' : world) :
  migrateUp client schemaTables w = (Resolved tt, w3) ->
  setDatabaseVersion w3 = (Resolved tt, w') ->
  settings (db w3) = settings (db w)
  /\ defaultDatabaseVersion w3 = defaultDatabaseVersion w.
Proof.
  intros Hup Hset.
  apply migrateUp_resolved in Hup. destruct Hup as (oldTables & Hc & Htab & Hs).
  apply setDatabaseVersion_resolved in Hset.
  split; [|exact Hc].
  rewrite Hs.
  destruct (mem "settings" (difference oldTables schemaTables)) eqn:Hdel;
    [|reflexivity].
  exfalso.
  apply mem_In in Hset. rewrite Htab, in_app_iff, filter_In in Hset.
  destruct Hset as [[_ H]|H].
  - rewrite Hdel in H. discriminate.
  - apply mem_In in Hdel. apply difference_In in Hdel, H. tauto.
Qed.

(** C4 (as the code has it). [setDatabaseVersion] takes no argument: it
    writes the cached default version into the rows keyed
    'databaseVersion'.  When the settings table has such a row, the default
    version is a three-digit marker and the legacy rows are markers no
    greater than it, a following [getDatabaseVersion] resolves with the
    default version.  In particular, when every marker row is a three-digit
    marker and one of them is keyed 'databaseVersion', a resolved upgrade
    run of [init] leaves a database whose resolved version is the default
    version. *)
Theorem setDatabaseVersion_observed :
  (forall (thrown : string -> js_err) (w : world) (target : string),
      defaultDatabaseVersion w = Some target ->
      is_version target = true ->
      mem "settings" (tables (db w)) = true ->
      (exists v, In ("databaseVersion", v) (settings (db w))) ->
      (forall v, In ("currentVersion", v) (settings (db w)) ->
                 exists s, v = Some s /\ is_version s = true
                           /\ (version_number s <= version_number target)%Z) ->
      exists w1,
        setDatabaseVersion w = (Resolved tt, w1)
        /\ getDatabaseVersion thrown w1 = (Resolved target, probed true w1))
  /\ (forall (client : string) (schemaTables : list string)
             (core : list (string * string)) (thrown : string -> js_err)
             (w w1 w2 w' : world) (current target : string),
         getDatabaseVersion thrown w = (Resolved current, w1) ->
         getDefaultDatabaseVersion core w1 = (Resolved target, w2) ->
         is_version target = true ->
         (version_number current < version_number target)%Z ->
         (exists v, In ("databaseVersion", v) (settings (db w))) ->
         (forall v, In v (marker_values (db w)) ->
                    exists s, v = Some s /\ is_version s = true) ->
         init client schemaTables core thrown w = (Resolved tt, w') ->
         getDatabaseVersion thrown w' = (Resolved target, probed true w')).
Proof.
  split; [exact setDatabaseVersion_then_getDatabaseVersion|].
  intros client schemaTables core thrown w w1 w2 w' current target
         Hget Hdef Htarget Hlt Hrow Hmarkers Hinit.
  (* the resolved version is a marker, and the greatest of the rows *)
  assert (Hnum : forall v, In v (marker_values (db w)) -> isNaN_value v = false).
  { intros v Hv. destruct (Hmarkers v Hv) as (s & -> & Hs).
    now apply version_numeric. }
  destruct (reduce_versions_greatest thrown (marker_values (db w)) initialVersion 0
              Hnum eq_refl)
    as (r & n & E & Hr & _ & Hwhere & Hmax).
  pose proof Hget as Hget'.
  rewrite getDatabaseVersion_steps in Hget'.
  destruct (mem "settings" (tables (db w))) eqn:Hs; [|discriminate].
  rewrite E in Hget'.
  destruct (parseInt_nonempty r n Hr) as (c & r' & Er). rewrite Er in Hget'.
  injection Hget' as <- <-. rewrite <- Er in *. clear c r' Er.
  assert (Hcur : is_version r = true).
  { destruct Hwhere as [->|H]; [reflexivity|].
    destruct (Hmarkers _ H) as (s & Es & Hs'). now injection Es as ->. }
  rewrite (version_parseInt r Hcur) in Hr. injection Hr as <-.
  (* the run: migrateUp, then the write *)
  apply getDefaultDatabaseVersion_resolved in Hdef as Hdef'.
  destruct Hdef' as (Hdb2 & _ & _ & Hc2).
  assert (Hne : target <> EmptyString) by (intros ->; discriminate).
  specialize (Hc2 Hne).
  assert (Hstr : JS.str_lt r target = true).
  { rewrite (version_str_lt r target Hcur Htarget). now apply Z.ltb_lt. }
  unfold init, then2 in Hinit. rewrite Hget in Hinit.
  unfold bind at 1 in Hinit. rewrite Hdef in Hinit.
  rewrite (str_lt_neq _ _ Hstr), Hstr in Hinit.
  unfold bind in Hinit.
  destruct (migrateUp client schemaTables w2) as [[[]|e|] w3] eqn:Hup;
    try discriminate.
  destruct (upgrade_keeps_settings _ _ _ _ _ Hup Hinit) as (Hrows & Hc3).
  assert (Hrows' : settings (db w3) = settings (db w)).
  { rewrite Hrows, Hdb2. reflexivity. }
  destruct (setDatabaseVersion_then_getDatabaseVersion thrown w3 target)
    as (w4 & Hset & Hread).
  - now rewrite Hc3.
  - exact Htarget.
  - eapply setDatabaseVersion_resolved. exact Hinit.
  - now rewrite Hrows'.
  - rewrite Hrows'. intros v Hv.
    assert (Hin : In v (marker_values (db w))).
    { unfold marker_values. apply in_map_iff. exists ("currentVersion", v).
      split; [reflexivity|]. apply filter_In. split; [exact Hv|reflexivity]. }
    destruct (Hmarkers v Hin) as (s & -> & Hs').
    exists s. repeat split; [exact Hs'|].
    specialize (Hmax s (version_number s) Hin (version_parseInt s Hs')). lia.
  - rewrite Hset in Hinit. injection Hinit as <-. exact Hread.
Qed.

Lemma setDatabaseVersion_observed_witness :
  let w' := snd (init "sqlite3" sample_tables sample_defaults throwError
                      (boot outdated_db)) in
  getDatabaseVersion throwError w' = (Resolved "004", probed true w').
Proof.
  cbv zeta.
  apply (proj2 setDatabaseVersion_observed
           "sqlite3" sample_tables sample_defaults throwError
           (boot outdated_db)
           (snd (getDatabaseVersion throwError (boot outdated_db)))
           (snd (getDefaultDatabaseVersion sample_defaults
                   (snd (getDatabaseVersion throwError (boot outdated_db)))))
           (snd (init "sqlite3" sample_tables sample_defaults throwError
                      (boot outdated_db)))
           "003" "004").
  - vm_compute. reflexivity.
  - vm_compute. reflexivity.
  - vm_compute. reflexivity.
  - vm_compute. reflexivity.
  - exists (Some "003"). cbn. now left.
  - cbn. intros v [<-|[<-|[]]]; eexists; split; reflexivity.
  - vm_compute. reflexivity.
Defined.

(** An installation that only has the legacy row 'currentVersion': the
    upgrade run resolves and the write is fulfilled, but it matches no
    row, and the resolved version is still 002 instead of 004.  The same
    holds of [setDatabaseVersion] on its own. *)
Lemma setDatabaseVersion_without_databaseVersion_row :
  let d := markers_db [("currentVersion", Some "002")] in
  let run := init "sqlite3" ["posts"; "settings"] sample_defaults throwError (boot d) in
  mem "settings" (tables d) = true
  /\ fst run = Resolved tt
  /\ In (Fulfilled (UpdateVersion (Some "004"))) (trace (snd run))
  /\ fst (getDatabaseVersion throwError (snd run)) = Resolved "002"
  /\ fst (setDatabaseVersion (mkWorld d (Some "004") [] [])) = Resolved tt
  /\ fst (getDatabaseVersion throwError
            (snd (setDatabaseVersion (mkWorld d (Some "004") [] []))))
     = Resolved "002".
Proof.
  cbv zeta. repeat split; vm_compute; tauto.
Qed.

(** Whenever [migrateUp] runs the MySQL check and resolves, every ALTER
    the check has issued is still in flight at the end. *)
Lemma migrateUp_mysql_repair_never_awaited (schemaTables : list string)
  (w w0 w' : world) (oldTables : list string) :
  getTables "mysql" w = (Resolved oldTables, w0) ->
  oldTables <> [] ->
  migrateUp "mysql" schemaTables w = (Resolved tt, w') ->
  exists entries,
    answer_showFields (db w) = inr (entries, db w)
    /\ inflight w' = inflight w ++ to_widen entries.
Proof.
  intros Hget Hne Hrun. rewrite migrateUp_steps, Hget in Hrun.
  apply getTables_resolved in Hget. destruct Hget as (Hdb0 & Hi0 & _).
  destruct oldTables as [|t ts]; [contradiction|].
  cbn [isEmpty negb andb String.eqb] in Hrun.
  change (String.eqb "mysql" "mysql") with true in Hrun. cbn iota in Hrun.
  destruct (checkMySQLPostTable w0) as [[arr|e|] w1] eqn:Hcheck; try discriminate.
  apply checkMySQLPostTable_resolved in Hcheck.
  destruct Hcheck as (entries & Hshow & _ & _ & Hi1 & _).
  apply migrate_commands_resolved in Hrun. destruct Hrun as (_ & Hi & _).
  exists entries. rewrite <- Hdb0. split; [exact Hshow|].
  rewrite Hi, Hi1, Hi0. reflexivity.
Qed.

(** A missing settings table is the case [init] means to bootstrap. *)
Lemma init_fresh_install (client : string) (schemaTables : list string)
  (core : list (string * string)) (thrown : string -> js_err) (w : world) :
  mem "settings" (tables (db w)) = false ->
  init client schemaTables core thrown w
  = migrateUpFreshDb schemaTables (probed false w).
Proof.
  intro Hs. unfold init, then2. rewrite getDatabaseVersion_steps, Hs. reflexivity.
Qed.

(** A rejection with a bare string other than the expected one is
    reported and ends the process. *)
Lemma init_string_rejection_is_fatal (client : string) (schemaTables : list string)
  (core : list (string * string)) (thrown : string -> js_err) (w w1 : world)
  (e : string) :
  getDatabaseVersion thrown w = (Rejected (JString e), w1) ->
  String.eqb e "Settings table does not exist" = false ->
  init client schemaTables core thrown w
  = (Exited,
     log (LogErrorAndExit "There is a problem with the database" (JString e)) w1).
Proof.
  intros Hget He. unfold init, then2. rewrite Hget.
  cbn [err_message falsy negb orb strict_eq]. rewrite He. reflexivity.
Qed.

(** With [throwError] as the error-handling module has it, a marker row
    that is not numeric always sends [init] into the fresh-install path. *)
Lemma init_unrecognised_version_bootstraps (client : string)
  (schemaTables : list string) (core : list (string * string)) (w : world) :
  mem "settings" (tables (db w)) = true ->
  (exists v, In v (marker_values (db w)) /\ isNaN_value v = true) ->
  init client schemaTables core throwError w
  = migrateUpFreshDb schemaTables (probed true w).
Proof.
  intros Hs Hv.
  apply (init_error_object_bootstraps client schemaTables core throwError w
           (probed true w) "D" "atabase version is not recognised").
  now apply getDatabaseVersion_rejects_non_numeric.
Qed.

(** * Further properties of the module *)

(** ** init on an up-to-date or a fresh database *)

(** X1. When the resolved version is the default version, [init] resolves
    after the two reads of the resolver: it issues no other operation and
    the database is as it was. *)
Theorem init_up_to_date_is_noop
  (client : string) (schemaTables : list string) (core : list (string * string))
  (thrown : string -> js_err) (w w1 w2 : world) (version : string) :
  getDatabaseVersion thrown w = (Resolved version, w1) ->
  getDefaultDatabaseVersion core w1 = (Resolved version, w2) ->
  exists w',
    init client schemaTables core thrown w = (Resolved tt, w')
    /\ db w' = db w
    /\ inflight w' = inflight w
    /\ trace w' = trace w ++ resolver_reads.
Proof.
  intros Hget Hdef. unfold init, then2. rewrite Hget. unfold bind. rewrite Hdef.
  rewrite String.eqb_refl. exists w2. split; [reflexivity|].
  apply getDatabaseVersion_resolved in Hget. destruct Hget as [-> _].
  apply getDefaultDatabaseVersion_resolved in Hdef.
  destruct Hdef as (Hdb & Hi & Ht & _).
  rewrite Hdb, Hi, Ht, probed_trace. repeat split.
Qed.

Lemma init_up_to_date_is_noop_witness :
  exists w',
    init "mysql" sample_tables sample_defaults throwError
         (boot (markers_db [("databaseVersion", Some "004")]))
    = (Resolved tt, w')
    /\ db w' = markers_db [("databaseVersion", Some "004")]
    /\ inflight w' = []
    /\ trace w' = resolver_reads.
Proof.
  apply (init_up_to_date_is_noop "mysql" sample_tables sample_defaults throwError
           (boot (markers_db [("databaseVersion", Some "004")]))
           (snd (getDatabaseVersion throwError
                   (boot (markers_db [("databaseVersion", Some "004")]))))
           (snd (getDefaultDatabaseVersion sample_defaults
                   (snd (getDatabaseVersion throwError
                           (boot (markers_db [("databaseVersion", Some "004")]))))))
           "004").
  - vm_compute. reflexivity.
  - vm_compute. reflexivity.
Defined.

Lemma migrateUpFreshDb_resolves (schemaTables : list string) (w : world) :
  NoDup schemaTables ->
  (forall t, In t schemaTables -> ~ In t (tables (db w))) ->
  exists w',
    migrateUpFreshDb schemaTables w = (Resolved tt, w')
    /\ tables (db w') = tables (db w) ++ schemaTables
    /\ settings (db w') = settings (db w)
    /\ inflight w' = inflight w
    /\ trace w' = trace w ++ flat_map create_events schemaTables ++ loader_events.
Proof.
  intros Hnd Hfresh. unfold migrateUpFreshDb, bind.
  destruct (sequence_createTable_resolves schemaTables w Hnd Hfresh) as (w1 & E).
  rewrite E. apply sequence_createTable in E.
  destruct E as (Ht & Hi & _ & Htab & Hs & _).
  unfold populateFixtures, populateDefaults, await, answer_loader.
  cbn [db log set_db]. eexists. split; [reflexivity|].
  cbn [db tables settings inflight trace log set_db].
  rewrite Htab, Hs, Hi, Ht. unfold loader_events.
  rewrite <- !app_assoc. repeat split.
Qed.

(** X2. On a database without a settings table in which no Registry table
    is live, for a Registry that does not declare sqlite_sequence, [init]
    resolves: after the one read that finds the settings table missing it
    creates every Registry table in declaration order, then runs the
    fixture loader, then the default-settings loader, and nothing else;
    every Registry table is live at the end and every table that was live
    still is. *)
Theorem init_bootstraps_fresh_database
  (client : string) (schemaTables : list string) (core : list (string * string))
  (thrown : string -> js_err) (w : world) :
  mem "settings" (tables (db w)) = false ->
  NoDup schemaTables ->
  ~ In "sqlite_sequence" schemaTables ->
  (forall t, In t schemaTables -> ~ In t (tables (db w))) ->
  exists w',
    init client schemaTables core thrown w = (Resolved tt, w')
    /\ (forall t, In t schemaTables \/ In t (tables (db w)) -> In t (tables (db w')))
    /\ inflight w' = inflight w
    /\ trace w' = trace w
                  ++ [Issued (HasTable "settings"); Fulfilled (HasTable "settings")]
                  ++ flat_map create_events schemaTables ++ loader_events.
Proof.
  intros Hs Hnd _ Hfresh. rewrite (init_fresh_install _ _ _ _ _ Hs).
  destruct (migrateUpFreshDb_resolves schemaTables (probed false w) Hnd Hfresh)
    as (w' & E & Htab & _ & Hi & Ht).
  exists w'. split; [exact E|].
  rewrite Htab, Hi, Ht, probed_trace. cbn [probed db inflight].
  rewrite app_nil_r, <- !app_assoc. split; [|split; reflexivity].
  intros t Hin. apply in_or_app. tauto.
Qed.

Lemma init_bootstraps_fresh_database_witness :
  exists w',
    init "pg" sample_tables sample_defaults throwError
         (boot (mkDatabase ["old_widgets"] [] []))
    = (Resolved tt, w')
    /\ (forall t, In t sample_tables \/ In t ["old_widgets"] -> In t (tables (db w')))
    /\ inflight w' = []
    /\ trace w' = [Issued (HasTable "settings"); Fulfilled (HasTable "settings")]
                  ++ flat_map create_events sample_tables ++ loader_events.
Proof.
  apply (init_bootstraps_fresh_database "pg" sample_tables sample_defaults throwError
           (boot (mkDatabase ["old_widgets"] [] []))).
  - reflexivity.
  - unfold sample_tables. nodup_strings.
  - cbn [sample_tables In]. intuition discriminate.
  - intros t Ht [<-|[]]. cbn in Ht. intuition discriminate.
Defined.

(** A creation run over a list that names a live table is refused at the
    first such table; up to there only table operations were issued. *)
Lemma sequence_createTable_refused (l : list string) (w : world) (t : string) :
  In t l -> In t (tables (db w)) ->
  exists t' w' evs,
    sequence (map (fun table => createTable table) l) w
    = (Rejected (JError ("table " ++ t' ++ " already exists")%string), w')
    /\ In t' l
    /\ trace w' = trace w ++ evs
    /\ forallb is_table_op evs = true.
Proof.
  revert w. induction l as [|t0 l IH]; intros w Hin Hlive; [destruct Hin|].
  cbn [map sequence]. unfold bind.
  unfold createTable at 1, await at 1, answer_createTable at 1.
  cbn [db log set_db].
  destruct (mem t0 (tables (db w))) eqn:Hm.
  - exists t0. eexists. exists [Issued (CreateTable t0); Refused (CreateTable t0)].
    split; [reflexivity|]. split; [now left|].
    cbn [trace log]. rewrite <- app_assoc. split; reflexivity.
  - assert (Hrest : In t l).
    { destruct Hin as [->|H]; [|exact H].
      apply mem_false in Hm. contradiction. }
    match goal with
    | |- context [sequence _ ?w1] =>
        destruct (IH w1 Hrest) as (t' & w' & evs & E & Hin' & Ht & Hops)
    end.
    { cbn [db tables log set_db]. apply in_or_app. now left. }
    exists t', w', (create_events t0 ++ evs).
    split; [exact E|]. split; [now right|].
    cbn [trace log set_db] in Ht. split.
    + rewrite Ht. unfold create_events. rewrite <- !app_assoc. reflexivity.
    + rewrite forallb_app. rewrite Hops. reflexivity.
Qed.

(** X3. [migrateUpFreshDb] on a database in which a Registry table is
    already live is rejected by the first such creation: whatever it has
    issued up to then are table operations, so neither the fixture loader
    nor the default-settings loader is ever started. *)
Theorem migrateUpFreshDb_refused_before_loaders
  (schemaTables : list string) (w : world) (t : string) :
  In t schemaTables -> In t (tables (db w)) ->
  exists t' w' evs,
    migrateUpFreshDb schemaTables w
    = (Rejected (JError ("table " ++ t' ++ " already exists")%string), w')
    /\ In t' schemaTables
    /\ trace w' = trace w ++ evs
    /\ forallb is_table_op evs = true
    /\ ~ In (Issued PopulateFixtures) evs
    /\ ~ In (Issued PopulateDefaults) evs.
Proof.
  intros Hin Hlive.
  destruct (sequence_createTable_refused schemaTables w t Hin Hlive)
    as (t' & w' & evs & E & Hin' & Ht & Hops).
  exists t', w', evs. unfold migrateUpFreshDb, bind. rewrite E.
  split; [reflexivity|]. split; [exact Hin'|]. split; [exact Ht|].
  split; [exact Hops|].
  rewrite forallb_forall in Hops.
  split; intro H; specialize (Hops _ H); discriminate Hops.
Qed.

Lemma migrateUpFreshDb_refused_before_loaders_witness :
  exists t' w' evs,
    migrateUpFreshDb sample_tables (boot outdated_db)
    = (Rejected (JError ("table " ++ t' ++ " already exists")%string), w')
    /\ In t' sample_tables
    /\ trace w' = trace (boot outdated_db) ++ evs
    /\ forallb is_table_op evs = true
    /\ ~ In (Issued PopulateFixtures) evs
    /\ ~ In (Issued PopulateDefaults) evs.
Proof.
  apply (migrateUpFreshDb_refused_before_loaders sample_tables (boot outdated_db)
           "settings").
  - cbn. tauto.
  - cbn. tauto.
Defined.

(** ** Engines without an adapter *)

Lemma getTables_unsupported (client : string) (w : world) :
  String.eqb client "sqlite3" = false ->
  String.eqb client "mysql" = false ->
  String.eqb client "pg" = false ->
  getTables client w
  = (Rejected (JString ("No support for database client " ++ client)%string), w).
Proof.
  intros H1 H2 H3. unfold getTables. rewrite H1, H2, H3. reflexivity.
Qed.

(** X4. On an engine other than sqlite3, mysql and pg, an outdated
    database makes [init] reject with the bare string 'No support for
    database client ...': the rejection of [migrateUp] is not seen by the
    rejection handler of [init], so the process does not exit; no query
    beyond the two reads of the resolver is issued and the marker is not
    written. *)
Theorem init_unsupported_engine_rejects
  (client : string) (schemaTables : list string) (core : list (string * string))
  (thrown : string -> js_err) (w w1 w2 : world) (current target : string) :
  String.eqb client "sqlite3" = false ->
  String.eqb client "mysql" = false ->
  String.eqb client "pg" = false ->
  getDatabaseVersion thrown w = (Resolved current, w1) ->
  getDefaultDatabaseVersion core w1 = (Resolved target, w2) ->
  JS.str_lt current target = true ->
  exists w',
    init client schemaTables core thrown w
    = (Rejected (JString ("No support for database client " ++ client)%string), w')
    /\ db w' = db w
    /\ inflight w' = inflight w
    /\ trace w' = trace w ++ resolver_reads.
Proof.
  intros H1 H2 H3 Hget Hdef Hlt. unfold init, then2. rewrite Hget.
  unfold bind at 1. rewrite Hdef, (str_lt_neq _ _ Hlt), Hlt.
  unfold bind. rewrite migrateUp_steps, (getTables_unsupported client w2 H1 H2 H3).
  exists w2. split; [reflexivity|].
  apply getDatabaseVersion_resolved in Hget. destruct Hget as [-> _].
  apply getDefaultDatabaseVersion_resolved in Hdef.
  destruct Hdef as (Hdb & Hi & Ht & _).
  rewrite Hdb, Hi, Ht, probed_trace. repeat split.
Qed.

Lemma init_unsupported_engine_rejects_witness :
  exists w',
    init "oracle" sample_tables sample_defaults throwError (boot outdated_db)
    = (Rejected (JString "No support for database client oracle"), w')
    /\ db w' = outdated_db
    /\ inflight w' = []
    /\ trace w' = resolver_reads.
Proof.
  apply (init_unsupported_engine_rejects "oracle" sample_tables sample_defaults
           throwError (boot outdated_db)
           (snd (getDatabaseVersion throwError (boot outdated_db)))
           (snd (getDefaultDatabaseVersion sample_defaults
                   (snd (getDatabaseVersion throwError (boot outdated_db)))))
           "003" "004"); vm_compute; reflexivity.
Defined.

(** ** The cached default version *)

(** X5. Once [getDefaultDatabaseVersion] has returned a non-empty
    version, every later call returns that version and leaves the world
    alone, whatever the default settings say by then; and while the
    default settings have no 'databaseVersion' entry and nothing is
    cached, the call throws and caches nothing. *)
Theorem getDefaultDatabaseVersion_is_memoized :
  (forall (core core' : list (string * string)) (w w1 : world) (c : ascii) (v : string),
      getDefaultDatabaseVersion core w = (Resolved (String c v), w1) ->
      getDefaultDatabaseVersion core' w1 = (Resolved (String c v), w1))
  /\ (forall (core : list (string * string)) (w : world),
         defaultDatabaseVersion w = None ->
         (forall k v, In (k, v) core -> k <> "databaseVersion") ->
         exists e, getDefaultDatabaseVersion core w = (Rejected e, w)).
Proof.
  split.
  - intros core core' w w1 c v H.
    assert (Hc : defaultDatabaseVersion w1 = Some (String c v)).
    { apply getDefaultDatabaseVersion_resolved in H.
      destruct H as (_ & _ & _ & H). apply H. discriminate. }
    unfold getDefaultDatabaseVersion. now rewrite Hc.
  - intros core w Hc Hno. unfold getDefaultDatabaseVersion. rewrite Hc.
    destruct (find (fun setting => String.eqb (fst setting) "databaseVersion") core)
      as [[k v]|] eqn:Hfind.
    + apply find_some in Hfind. destruct Hfind as [Hin Hk].
      apply String.eqb_eq in Hk. cbn [fst] in Hk.
      exfalso. exact (Hno k v Hin Hk).
    + eexists. reflexivity.
Qed.

Lemma getDefaultDatabaseVersion_is_memoized_witness :
  getDefaultDatabaseVersion [("databaseVersion", "009")]
    (snd (getDefaultDatabaseVersion sample_defaults (boot outdated_db)))
  = (Resolved "004", snd (getDefaultDatabaseVersion sample_defaults (boot outdated_db))).
Proof.
  apply (proj1 getDefaultDatabaseVersion_is_memoized sample_defaults
           [("databaseVersion", "009")] (boot outdated_db)).
  reflexivity.
Defined.

(** ** The resolver and the marker write *)

Lemma reduce_versions_error (thrown : string -> js_err)
  (versions : list (option string)) (memo : option string) (e : js_err) :
  reduce_versions thrown versions memo = inl e ->
  e = thrown "Database version is not recognised".
Proof.
  revert memo. induction versions as [|value rest IH]; intro memo; cbn [reduce_versions].
  - discriminate.
  - destruct (isNaN_value value); [|apply IH].
    intro H. now injection H as <-.
Qed.

(** X6. [getDatabaseVersion] never changes the database, and it rejects
    with the error 'Settings table does not exist' exactly when the
    settings table is not live; in that case the rows are not selected. *)
Theorem getDatabaseVersion_settings_table_missing (w : world) :
  db (snd (getDatabaseVersion throwError w)) = db w
  /\ (fst (getDatabaseVersion throwError w)
      = Rejected (JError "Settings table does not exist")
      <-> mem "settings" (tables (db w)) = false)
  /\ (mem "settings" (tables (db w)) = false ->
      trace (snd (getDatabaseVersion throwError w))
      = trace w ++ [Issued (HasTable "settings"); Fulfilled (HasTable "settings")]).
Proof.
  rewrite getDatabaseVersion_steps.
  destruct (mem "settings" (tables (db w))) eqn:Hs.
  - destruct (reduce_versions throwError (marker_values (db w)) (Some initialVersion))
      as [e|v] eqn:E.
    + apply reduce_versions_error in E. subst e.
      split; [reflexivity|]. split; [|discriminate].
      split; intro H; discriminate H.
    + split; [reflexivity|]. split; [|discriminate].
      split; intro H; discriminate H.
  - split; [reflexivity|]. split; [tauto|].
    intros _. cbn [snd]. rewrite probed_trace, app_nil_r. reflexivity.
Qed.

(** X7. A marker write that resolves rewrites the value of the rows keyed
    'databaseVersion' to the cached default version and nothing else: the
    keys of the settings rows and their order are kept, no row is added or
    removed, every row under another key keeps its value, and the tables
    are untouched. *)
Theorem setDatabaseVersion_rewrites_only_the_marker (w w' : world) :
  setDatabaseVersion w = (Resolved tt, w') ->
  tables (db w') = tables (db w)
  /\ posts_fields (db w') = posts_fields (db w)
  /\ map fst (settings (db w')) = map fst (settings (db w))
  /\ (forall k v, k <> "databaseVersion" ->
                  (In (k, v) (settings (db w')) <-> In (k, v) (settings (db w))))
  /\ (forall v, In ("databaseVersion", v) (settings (db w')) ->
                v = defaultDatabaseVersion w).
Proof.
  unfold setDatabaseVersion, await, answer_updateVersion. cbn [db log].
  destruct (mem "settings" (tables (db w))); [|discriminate].
  intro H. injection H as <-. cbn [db tables settings posts_fields log set_db].
  split; [reflexivity|]. split; [reflexivity|].
  induction (settings (db w)) as [|[k0 v0] rows (IHk & IHother & IHmarker)].
  - cbn. repeat split; try tauto.
  - cbn [map fst]. destruct (String.eqb k0 "databaseVersion") eqn:E.
    + apply String.eqb_eq in E. subst k0. cbn [fst]. split; [now f_equal|]. split.
      * intros k v Hk. cbn [In]. rewrite (IHother k v Hk).
        split; intros [H|H]; try (now right); injection H as <- _; contradiction.
      * intros v [H|H]; [now injection H as <-|now apply IHmarker].
    + apply String.eqb_neq in E. cbn [fst]. split; [now f_equal|]. split.
      * intros k v Hk. cbn [In]. now rewrite (IHother k v Hk).
      * intros v [H|H]; [injection H as -> _; contradiction|now apply IHmarker].
Qed.

Lemma setDatabaseVersion_rewrites_only_the_marker_witness :
  map fst (settings (db (snd (setDatabaseVersion
                                (mkWorld outdated_db (Some "004") [] [])))))
  = ["databaseVersion"; "currentVersion"].
Proof.
  apply (setDatabaseVersion_rewrites_only_the_marker
           (mkWorld outdated_db (Some "004") [] [])
           (snd (setDatabaseVersion (mkWorld outdated_db (Some "004") [] [])))).
  vm_compute. reflexivity.
Defined.

Lemma getDatabaseVersion_settings_table_missing_witness :
  trace (snd (getDatabaseVersion throwError (boot (mkDatabase ["old_widgets"] [] []))))
  = [Issued (HasTable "settings"); Fulfilled (HasTable "settings")].
Proof.
  apply (proj2 (proj2 (getDatabaseVersion_settings_table_missing
                         (boot (mkDatabase ["old_widgets"] [] []))))).
  reflexivity.
Defined.

(** ** reset *)

Lemma mem_rev (x : string) (l : list string) : mem x (rev l) = mem x l.
Proof.
  destruct (mem x l) eqn:E.
  - apply mem_In. apply mem_In in E. now apply in_rev in E.
  - apply mem_false. apply mem_false in E. intro H. apply E. now apply in_rev.
Qed.

Lemma reset_drops_settings_trace (schemaTables : list string) (w : world) :
  exists w',
    reset schemaTables w = (Resolved tt, w')
    /\ trace w' = trace w ++ flat_map drop_events (rev schemaTables)
    /\ tables (db w') = difference (tables (db w)) schemaTables.
Proof.
  unfold reset. rewrite <- map_rev.
  destruct (sequence_deleteTable (rev schemaTables) w)
    as (w' & E & Ht & _ & _ & Htab & _).
  exists w'. split; [exact E|]. split; [exact Ht|].
  rewrite Htab. unfold difference. apply filter_ext.
  intro x. now rewrite mem_rev.
Qed.

(** X8. [reset] takes exactly the Registry's tables away: afterwards a
    table is live if and only if it was live and the Registry does not
    declare it, the tables that stay keep their order, and the settings
    rows are gone exactly when the Registry declares the settings table. *)
Theorem reset_removes_registry_tables (schemaTables : list string) (w : world) :
  exists w',
    reset schemaTables w = (Resolved tt, w')
    /\ tables (db w') = difference (tables (db w)) schemaTables
    /\ (forall t, In t (tables (db w')) <->
                  In t (tables (db w)) /\ ~ In t schemaTables)
    /\ settings (db w')
       = (if mem "settings" schemaTables then [] else settings (db w)).
Proof.
  unfold reset. rewrite <- map_rev.
  destruct (sequence_deleteTable (rev schemaTables) w)
    as (w' & E & _ & _ & _ & Htab & Hs & _).
  exists w'. split; [exact E|].
  assert (Hd : tables (db w') = difference (tables (db w)) schemaTables).
  { rewrite Htab. unfold difference. apply filter_ext.
    intro x. now rewrite mem_rev. }
  split; [exact Hd|]. split.
  - intro t. rewrite Hd. apply difference_In.
  - rewrite Hs, mem_rev. reflexivity.
Qed.

(** X9. [reset] followed by [init], for a Registry without duplicates
    that declares the settings table and not sqlite_sequence: [init] finds
    the settings table missing and bootstraps; the run resolves, having
    dropped the Registry's tables in reverse order and created them again
    in declaration order before the loaders run; at the end every Registry
    table is live and so is every table that was live before. *)
Theorem reset_then_init_bootstraps
  (client : string) (schemaTables : list string) (core : list (string * string))
  (thrown : string -> js_err) (w : world) :
  NoDup schemaTables ->
  In "settings" schemaTables ->
  ~ In "sqlite_sequence" schemaTables ->
  exists w1 w2,
    reset schemaTables w = (Resolved tt, w1)
    /\ init client schemaTables core thrown w1 = (Resolved tt, w2)
    /\ (forall t, In t schemaTables \/ In t (tables (db w)) -> In t (tables (db w2)))
    /\ trace w2 = trace w
                  ++ flat_map drop_events (rev schemaTables)
                  ++ [Issued (HasTable "settings"); Fulfilled (HasTable "settings")]
                  ++ flat_map create_events schemaTables ++ loader_events.
Proof.
  intros Hnd Hsettings _.
  destruct (reset_drops_settings_trace schemaTables w) as (w1 & E & Ht1 & Htab).
  assert (Hfresh : forall t, In t schemaTables -> ~ In t (tables (db w1))).
  { intros t Ht. rewrite Htab, difference_In. tauto. }
  assert (Hs : mem "settings" (tables (db w1)) = false).
  { apply mem_false. now apply Hfresh. }
  destruct (migrateUpFreshDb_resolves schemaTables (probed false w1) Hnd Hfresh)
    as (w2 & E2 & Htab2 & _ & _ & Ht2).
  exists w1, w2. split; [exact E|].
  rewrite (init_fresh_install client schemaTables core thrown w1 Hs).
  split; [exact E2|].
  rewrite Htab2, Ht2, probed_trace. cbn [probed db].
  rewrite Htab, Ht1, app_nil_r, <- !app_assoc. split; [|reflexivity].
  intros t Hin. rewrite in_app_iff, difference_In.
  destruct (mem t schemaTables) eqn:Hm;
    [apply mem_In in Hm|apply mem_false in Hm]; tauto.
Qed.

Lemma reset_then_init_bootstraps_witness :
  exists w1 w2,
    reset sample_tables (boot outdated_db) = (Resolved tt, w1)
    /\ init "sqlite3" sample_tables sample_defaults throwError w1 = (Resolved tt, w2)
    /\ (forall t, In t sample_tables \/ In t (tables (db (boot outdated_db))) ->
                  In t (tables (db w2)))
    /\ trace w2 = trace (boot outdated_db)
                  ++ flat_map drop_events (rev sample_tables)
                  ++ [Issued (HasTable "settings"); Fulfilled (HasTable "settings")]
                  ++ flat_map create_events sample_tables ++ loader_events.
Proof.
  apply (reset_then_init_bootstraps "sqlite3" sample_tables sample_defaults
           throwError (boot outdated_db)).
  - unfold sample_tables. nodup_strings.
  - cbn. tauto.
  - cbn [sample_tables In]. intuition discriminate.
Defined.

(** ** The enumeration of the live tables *)

Lemma getTables_supported (client : string) (w : world) :
  supported client = true ->
  getTables client w
  = (Resolved (enumerated client (tables (db w))), listed client w).
Proof.
  unfold supported, getTables, enumerated, listed, listing_sql,
    getTablesFromSqlite3, getTablesFromMySQL, getTablesFromPgSQL,
    bind, await, answer_listTables, ret.
  destruct (String.eqb client "sqlite3"); [reflexivity|].
  destruct (String.eqb client "mysql"); [reflexivity|].
  destruct (String.eqb client "pg"); [reflexivity|discriminate].
Qed.

Lemma getTables_not_supported (client : string) (w : world) :
  supported client = false ->
  getTables client w
  = (Rejected (JString ("No support for database client " ++ client)%string), w).
Proof.
  unfold supported. intro H.
  apply orb_false_iff in H. destruct H as [H H3].
  apply orb_false_iff in H. destruct H as [H1 H2].
  now apply getTables_unsupported.
Qed.

Lemma getTables_resolved_supported (client : string) (w w0 : world)
  (old : list string) :
  getTables client w = (Resolved old, w0) ->
  supported client = true
  /\ old = enumerated client (tables (db w)) /\ w0 = listed client w.
Proof.
  destruct (supported client) eqn:Hs.
  - rewrite (getTables_supported client w Hs). intro H. injection H as <- <-.
    repeat split.
  - rewrite (getTables_not_supported client w Hs). discriminate.
Qed.

Lemma enumerated_In (client : string) (live : list string) (t : string) :
  In t (enumerated client live) -> In t live.
Proof.
  unfold enumerated. destruct (String.eqb client "sqlite3"); [|tauto].
  rewrite filter_In. tauto.
Qed.

Lemma In_enumerated (client : string) (live : list string) (t : string) :
  In t live -> t <> "sqlite_sequence" -> In t (enumerated client live).
Proof.
  unfold enumerated. intros Hin Hne.
  destruct (String.eqb client "sqlite3"); [|exact Hin].
  apply filter_In. split; [exact Hin|].
  now apply negb_true_iff, String.eqb_neq.
Qed.

(** A table that is live but not enumerated is SQLite's own. *)
Lemma not_enumerated (client : string) (live : list string) (t : string) :
  In t live -> ~ In t (enumerated client live) -> t = "sqlite_sequence".
Proof.
  intros Hin Hnot. destruct (String.eqb t "sqlite_sequence") eqn:E.
  - now apply String.eqb_eq.
  - exfalso. apply Hnot, In_enumerated; [exact Hin|now apply String.eqb_neq].
Qed.

Lemma difference_all (xs ys : list string) :
  (forall t, In t xs -> In t ys) -> difference xs ys = [].
Proof.
  intro H. unfold difference. induction xs as [|x xs IH]; [reflexivity|].
  cbn [filter]. assert (Hx : mem x ys = true).
  { apply mem_In, H. now left. }
  rewrite Hx. cbn [negb]. apply IH. intros t Ht. apply H. now right.
Qed.

Lemma In_dec_string (t : string) (l : list string) : In t l \/ ~ In t l.
Proof.
  destruct (mem t l) eqn:E; [left; now apply mem_In|right; now apply mem_false].
Qed.

(** ** migrateUp: what it leaves behind and what it never does *)

Lemma drop_events_table_ops (l : list string) :
  forallb is_table_op (flat_map drop_events l) = true.
Proof. induction l as [|t l IH]; [reflexivity|exact IH]. Qed.

Lemma create_events_table_ops (l : list string) :
  forallb is_table_op (flat_map create_events l) = true.
Proof. induction l as [|t l IH]; [reflexivity|exact IH]. Qed.

Lemma is_raw_Issued (qs : list query) :
  (forall q, In q qs -> exists sql, q = Raw sql) ->
  forallb is_raw (map Issued qs) = true.
Proof.
  intro H. apply forallb_forall. intros e He.
  apply in_map_iff in He. destruct He as (q & <- & Hq).
  destruct (H q Hq) as (sql & ->). reflexivity.
Qed.

(** Whatever becomes of a run of creations, it issues table operations
    only and leaves nothing in flight. *)
Lemma sequence_createTable_any (l : list string) (w : world) :
  inflight (snd (sequence (map (fun table => createTable table) l) w)) = inflight w
  /\ exists evs,
      trace (snd (sequence (map (fun table => createTable table) l) w))
      = trace w ++ evs
      /\ forallb is_table_op evs = true.
Proof.
  revert w. induction l as [|t l IH]; intro w.
  - cbn. split; [reflexivity|]. exists []. now rewrite app_nil_r.
  - cbn [map sequence]. unfold bind.
    unfold createTable at 1 3, await, answer_createTable.
    cbn [db log set_db].
    destruct (mem t (tables (db w))).
    + cbn [snd inflight trace log]. split; [reflexivity|].
      exists [Issued (CreateTable t); Refused (CreateTable t)].
      rewrite <- app_assoc. split; reflexivity.
    + match goal with
      | |- context [sequence _ ?w1] => destruct (IH w1) as (Hi & evs & Ht & Hops)
      end.
      cbn [inflight trace log set_db] in Hi, Ht. split; [exact Hi|].
      exists (create_events t ++ evs). split.
      * rewrite Ht. unfold create_events. rewrite <- !app_assoc. reflexivity.
      * rewrite forallb_app, Hops. reflexivity.
Qed.

Lemma migrate_commands_any (schemaTables oldTables : list string) (w : world) :
  inflight (snd (sequence (migrate_commands schemaTables oldTables) w)) = inflight w
  /\ exists evs,
      trace (snd (sequence (migrate_commands schemaTables oldTables) w))
      = trace w ++ evs
      /\ forallb is_table_op evs = true.
Proof.
  unfold migrate_commands. rewrite sequence_app. unfold bind.
  destruct (sequence_deleteTable (difference oldTables schemaTables) w)
    as (w1 & E & Ht1 & Hi1 & _).
  rewrite E.
  destruct (sequence_createTable_any (difference schemaTables oldTables) w1)
    as (Hi & evs & Ht & Hops).
  split; [now rewrite Hi|].
  exists (flat_map drop_events (difference oldTables schemaTables) ++ evs).
  split.
  - rewrite Ht, Ht1, <- app_assoc. reflexivity.
  - rewrite forallb_app, drop_events_table_ops, Hops. reflexivity.
Qed.

(** X10. Off MySQL the repair is never started: whatever becomes of
    [migrateUp] on another engine, after the enumeration it issues table
    operations only (no SHOW FIELDS, no ALTER) and leaves nothing in
    flight. *)
Theorem migrateUp_repairs_on_mysql_only
  (client : string) (schemaTables : list string) (w : world) :
  String.eqb client "mysql" = false ->
  inflight (snd (migrateUp client schemaTables w)) = inflight w
  /\ exists evs,
      trace (snd (migrateUp client schemaTables w))
      = trace (snd (getTables client w)) ++ evs
      /\ forallb is_table_op evs = true.
Proof.
  intro Hclient. rewrite migrateUp_steps.
  destruct (supported client) eqn:Hs.
  - rewrite (getTables_supported client w Hs), Hclient, andb_false_r. cbn [snd].
    destruct (migrate_commands_any schemaTables
                (enumerated client (tables (db w))) (listed client w))
      as (Hi & evs & Ht & Hops).
    split; [exact Hi|]. exists evs. split; assumption.
  - rewrite (getTables_not_supported client w Hs). cbn [snd].
    split; [reflexivity|]. exists []. now rewrite app_nil_r.
Qed.

Lemma migrateUp_repairs_on_mysql_only_witness :
  inflight (snd (migrateUp "pg" sample_tables (boot outdated_db))) = [].
Proof.
  apply (migrateUp_repairs_on_mysql_only "pg" sample_tables (boot outdated_db)).
  reflexivity.
Defined.

Lemma checkMySQLPostTable_missing_posts (w : world) :
  mem "posts" (tables (db w)) = false ->
  checkMySQLPostTable w
  = (Rejected (no_such_table "posts"),
     mkWorld (db w) (defaultDatabaseVersion w) (inflight w)
             ((trace w ++ [Issued show_fields]) ++ [Refused show_fields])).
Proof.
  intro H. unfold checkMySQLPostTable, bind, await, answer_showFields.
  cbn [db log]. rewrite H. reflexivity.
Qed.

(** X11. On MySQL, when tables are live but the posts table is not, the
    check fails and [migrateUp] is rejected with its error: the only
    queries issued are the enumeration and SHOW FIELDS, no table is
    dropped or created, and the database is as it was. *)
Theorem migrateUp_mysql_without_posts_table (schemaTables : list string) (w : world) :
  tables (db w) <> [] ->
  mem "posts" (tables (db w)) = false ->
  exists w',
    migrateUp "mysql" schemaTables w = (Rejected (no_such_table "posts"), w')
    /\ db w' = db w
    /\ inflight w' = inflight w
    /\ trace w' = trace w ++ [Issued (Raw "show tables"); Fulfilled (Raw "show tables");
                              Issued show_fields; Refused show_fields].
Proof.
  intros Hne Hposts. rewrite migrateUp_steps.
  rewrite (getTables_supported "mysql" w eq_refl).
  change (enumerated "mysql" (tables (db w))) with (tables (db w)).
  destruct (tables (db w)) as [|t ts] eqn:Et; [contradiction|].
  cbn [isEmpty negb andb]. change (String.eqb "mysql" "mysql") with true. cbn iota.
  rewrite checkMySQLPostTable_missing_posts.
  - eexists. split; [reflexivity|].
    cbn [db inflight trace listed]. rewrite <- !app_assoc. repeat split.
  - cbn [listed db]. rewrite Et. exact Hposts.
Qed.

Lemma migrateUp_mysql_without_posts_table_witness :
  exists w',
    migrateUp "mysql" sample_tables (boot (mkDatabase ["settings"] [] []))
    = (Rejected (no_such_table "posts"), w')
    /\ db w' = mkDatabase ["settings"] [] []
    /\ inflight w' = []
    /\ trace w' = [Issued (Raw "show tables"); Fulfilled (Raw "show tables");
                   Issued show_fields; Refused show_fields].
Proof.
  apply (migrateUp_mysql_without_posts_table sample_tables
           (boot (mkDatabase ["settings"] [] []))).
  - discriminate.
  - reflexivity.
Defined.

Lemma migrateUp_resolved_enumerated (client : string) (schemaTables : list string)
  (w w' : world) :
  migrateUp client schemaTables w = (Resolved tt, w') ->
  supported client = true
  /\ exists w1,
      db w1 = db w
      /\ defaultDatabaseVersion w1 = defaultDatabaseVersion w
      /\ (exists evs, trace w1 = trace w ++ evs /\ forallb is_raw evs = true)
      /\ sequence (migrate_commands schemaTables (enumerated client (tables (db w)))) w1
         = (Resolved tt, w').
Proof.
  rewrite migrateUp_steps.
  destruct (supported client) eqn:Hs;
    [|rewrite (getTables_not_supported client w Hs); discriminate].
  rewrite (getTables_supported client w Hs). intro Hrun. split; [reflexivity|].
  destruct (negb (isEmpty (enumerated client (tables (db w))))
            && String.eqb client "mysql").
  - destruct (checkMySQLPostTable (listed client w)) as [[arr|e|] w1] eqn:Hcheck;
      try discriminate.
    apply checkMySQLPostTable_resolved in Hcheck.
    destruct Hcheck as (entries & _ & Hdb & Hc & _ & Ht).
    exists w1. split; [exact Hdb|]. split; [exact Hc|]. split; [|exact Hrun].
    exists ([Issued (Raw (listing_sql client)); Fulfilled (Raw (listing_sql client))]
            ++ [Issued show_fields; Fulfilled show_fields]
            ++ map Issued (to_widen entries)).
    split.
    + rewrite Ht. cbn [listed trace]. rewrite <- !app_assoc. reflexivity.
    + rewrite !forallb_app. cbn [forallb is_raw show_fields andb].
      apply is_raw_Issued, to_widen_Raw.
  - exists (listed client w). split; [reflexivity|]. split; [reflexivity|].
    split; [|exact Hrun].
    exists [Issued (Raw (listing_sql client)); Fulfilled (Raw (listing_sql client))].
    split; [|reflexivity]. cbn [listed trace]. rewrite <- !app_assoc. reflexivity.
Qed.

Lemma migrateUp_resolved_tables (client : string) (schemaTables : list string)
  (w w' : world) :
  migrateUp client schemaTables w = (Resolved tt, w') ->
  forall t,
    In t (tables (db w')) <->
    (In t (tables (db w))
     /\ ~ In t (difference (enumerated client (tables (db w))) schemaTables))
    \/ In t (difference schemaTables (enumerated client (tables (db w)))).
Proof.
  intros Hrun t. apply migrateUp_resolved_enumerated in Hrun.
  destruct Hrun as (_ & w1 & Hdb & _ & _ & Hrun).
  apply migrate_commands_resolved in Hrun. destruct Hrun as (_ & _ & _ & Htab & _).
  rewrite Htab, Hdb, in_app_iff, filter_In, negb_true_iff, mem_false. tauto.
Qed.

(** After a resolved run: a table other than sqlite_sequence is live iff
    the Registry declares it; sqlite_sequence is live only if the
    Registry declares it or the engine is sqlite3. *)
Lemma migrateUp_leaves_registry_aux
  (client : string) (schemaTables : list string) (w w' : world) :
  migrateUp client schemaTables w = (Resolved tt, w') ->
  (forall t, t <> "sqlite_sequence" ->
             (In t (tables (db w')) <-> In t schemaTables))
  /\ (In "sqlite_sequence" (tables (db w')) ->
      In "sqlite_sequence" schemaTables \/ String.eqb client "sqlite3" = true).
Proof.
  intro Hrun. split.
  - intros t Hne. rewrite (migrateUp_resolved_tables _ _ _ _ Hrun t).
    rewrite !difference_In. split.
    + intros [[Hlive Hkept]|[Hs _]]; [|exact Hs].
      destruct (In_dec_string t schemaTables) as [Hs|Hs]; [exact Hs|].
      exfalso. apply Hkept. split; [|exact Hs]. now apply In_enumerated.
    + intro Hs.
      destruct (In_dec_string t (enumerated client (tables (db w)))) as [He|He].
      * left. split; [now apply enumerated_In in He|tauto].
      * right. tauto.
  - rewrite (migrateUp_resolved_tables _ _ _ _ Hrun "sqlite_sequence").
    rewrite !difference_In. intros [[Hlive Hkept]|[Hs _]]; [|now left].
    destruct (String.eqb client "sqlite3") eqn:E; [now right|].
    left. destruct (In_dec_string "sqlite_sequence" schemaTables) as [Hs|Hs];
      [exact Hs|].
    exfalso. apply Hkept. split; [|exact Hs].
    unfold enumerated. now rewrite E.
Qed.

(** ** migrateUp: the operations of a run *)

Lemma In_enumerated_iff (client : string) (live : list string) (t : string) :
  In t (enumerated client live) <->
  In t live /\ (String.eqb client "sqlite3" = true -> t <> "sqlite_sequence").
Proof.
  unfold enumerated. destruct (String.eqb client "sqlite3").
  - rewrite filter_In, negb_true_iff, String.eqb_neq. intuition.
  - intuition discriminate.
Qed.

Lemma enumerated_NoDup (client : string) (live : list string) :
  NoDup live -> NoDup (enumerated client live).
Proof.
  intro H. unfold enumerated. destruct (String.eqb client "sqlite3"); [|exact H].
  now apply NoDup_filter.
Qed.

Lemma is_raw_no_table_op (evs : list event) :
  forallb is_raw evs = true ->
  forallb (fun e => negb (is_table_op e)) evs = true.
Proof.
  rewrite !forallb_forall. intros H e He. specialize (H e He).
  destruct e as [q|q|q|]; try destruct q; try discriminate H; reflexivity.
Qed.

(** C3 (as the code has it). On sqlite3, mysql or pg, with distinct live
    tables and a duplicate-free Registry that does not declare
    sqlite_sequence, and on MySQL with the posts table live unless no
    table is: [migrateUp] resolves, and after the enumeration of the live
    tables (and the MySQL check) it has issued one [dropTableIfExists] for
    each live table the Registry does not declare - on sqlite3 with the
    exception of sqlite_sequence, which the enumeration leaves out and
    which is never dropped - and then one [createTable] for each Registry
    table that is not live; each operation is issued once the one before
    it is fulfilled, and the last deletion is fulfilled before the first
    creation is issued. *)
Theorem migrateUp_deletes_then_adds
  (client : string) (schemaTables : list string) (w : world) :
  supported client = true ->
  NoDup (tables (db w)) -> NoDup schemaTables ->
  ~ In "sqlite_sequence" schemaTables ->
  (String.eqb client "mysql" = true -> tables (db w) <> [] ->
   In "posts" (tables (db w))) ->
  exists w' before deleted added,
    migrateUp client schemaTables w = (Resolved tt, w')
    /\ trace w' = trace w ++ before
                  ++ flat_map drop_events deleted ++ flat_map create_events added
    /\ forallb (fun e => negb (is_table_op e)) before = true
    /\ NoDup deleted /\ NoDup added
    /\ (forall t, In t deleted <->
                  In t (tables (db w)) /\ ~ In t schemaTables
                  /\ (String.eqb client "sqlite3" = true -> t <> "sqlite_sequence"))
    /\ (forall t, In t added <-> In t schemaTables /\ ~ In t (tables (db w))).
Proof.
  intros Hs Hlive Hschema Hseq Hposts.
  destruct (migrateUp_resolves client schemaTables w (listed client w)
              (enumerated client (tables (db w)))) as (w' & Hrun).
  - now apply getTables_supported.
  - intros Hm Hne. apply mem_In. apply Hposts; [exact Hm|].
    intro E. apply Hne. rewrite E. unfold enumerated.
    destruct (String.eqb client "sqlite3"); reflexivity.
  - exact Hschema.
  - exact Hseq.
  - pose proof Hrun as Hrun'. apply migrateUp_resolved_enumerated in Hrun'.
    destruct Hrun' as (_ & w1 & _ & _ & (evs & Ht1 & Hraw) & Hcommands).
    apply migrate_commands_resolved in Hcommands. destruct Hcommands as (Ht & _).
    exists w', evs,
      (difference (enumerated client (tables (db w))) schemaTables),
      (difference schemaTables (enumerated client (tables (db w)))).
    split; [exact Hrun|].
    split; [rewrite Ht, Ht1, <- app_assoc; reflexivity|].
    split; [now apply is_raw_no_table_op|].
    split; [now apply difference_NoDup, enumerated_NoDup|].
    split; [now apply difference_NoDup|].
    split; intro t; rewrite difference_In, In_enumerated_iff.
    + tauto.
    + split; intros [Hin Hnot]; (split; [exact Hin|]).
      * intro Hl. apply Hnot. split; [exact Hl|]. intros _ ->. contradiction.
      * intros [Hl _]. now apply Hnot.
Qed.

Lemma migrateUp_deletes_then_adds_witness :
  exists w' before deleted added,
    migrateUp "mysql" sample_tables (boot outdated_db) = (Resolved tt, w')
    /\ trace w' = trace (boot outdated_db) ++ before
                  ++ flat_map drop_events deleted ++ flat_map create_events added
    /\ forallb (fun e => negb (is_table_op e)) before = true
    /\ NoDup deleted /\ NoDup added
    /\ (forall t, In t deleted <->
                  In t (tables (db (boot outdated_db))) /\ ~ In t sample_tables
                  /\ (String.eqb "mysql" "sqlite3" = true -> t <> "sqlite_sequence"))
    /\ (forall t, In t added <->
                  In t sample_tables /\ ~ In t (tables (db (boot outdated_db)))).
Proof.
  apply (migrateUp_deletes_then_adds "mysql" sample_tables (boot outdated_db)).
  - reflexivity.
  - cbn. nodup_strings.
  - unfold sample_tables. nodup_strings.
  - cbn [sample_tables In]. intuition discriminate.
  - intros _ _. cbn. tauto.
Defined.

(** On sqlite3 a live sqlite_sequence is outside the Registry and yet is
    never dropped: [getTablesFromSqlite3] leaves it out of the enumeration.
    Here the run resolves after the enumeration alone, and the table is
    still live. *)
Lemma migrateUp_keeps_sqlite_sequence :
  In "sqlite_sequence" ["posts"; "sqlite_sequence"; "settings"]
  /\ ~ In "sqlite_sequence" ["posts"; "settings"]
  /\ fst (migrateUp "sqlite3" ["posts"; "settings"]
            (boot (mkDatabase ["posts"; "sqlite_sequence"; "settings"] [] [])))
     = Resolved tt
  /\ trace (snd (migrateUp "sqlite3" ["posts"; "settings"]
                   (boot (mkDatabase ["posts"; "sqlite_sequence"; "settings"] [] []))))
     = [Issued (Raw "select * from sqlite_master where type = 'table'");
        Fulfilled (Raw "select * from sqlite_master where type = 'table'")]
  /\ ~ In (Issued (DropTableIfExists "sqlite_sequence"))
          (trace (snd (migrateUp "sqlite3" ["posts"; "settings"]
                         (boot (mkDatabase ["posts"; "sqlite_sequence"; "settings"]
                                           [] [])))))
  /\ In "sqlite_sequence"
        (tables (db (snd (migrateUp "sqlite3" ["posts"; "settings"]
                            (boot (mkDatabase ["posts"; "sqlite_sequence"; "settings"]
                                              [] [])))))).
Proof.
  split; [cbn; tauto|].
  split; [cbn; intuition discriminate|].
  split; [vm_compute; reflexivity|].
  split; [vm_compute; reflexivity|].
  split; [vm_compute; intuition discriminate|].
  vm_compute. tauto.
Qed.

(** X12. A run of [migrateUp] that resolves leaves exactly the Registry's
    tables live, SQLite's own sqlite_sequence aside: every other table is
    live afterwards if and only if the Registry declares it. *)
Theorem migrateUp_leaves_the_registry_tables
  (client : string) (schemaTables : list string) (w w' : world) :
  migrateUp client schemaTables w = (Resolved tt, w') ->
  forall t, t <> "sqlite_sequence" ->
            (In t (tables (db w')) <-> In t schemaTables).
Proof.
  intro Hrun. exact (proj1 (migrateUp_leaves_registry_aux _ _ _ _ Hrun)).
Qed.

Lemma migrateUp_leaves_the_registry_tables_witness :
  In "users" (tables (db (snd (migrateUp "sqlite3" sample_tables (boot outdated_db)))))
  <-> In "users" sample_tables.
Proof.
  apply (migrateUp_leaves_the_registry_tables "sqlite3" sample_tables
           (boot outdated_db)
           (snd (migrateUp "sqlite3" sample_tables (boot outdated_db)))).
  - vm_compute. reflexivity.
  - discriminate.
Defined.

Lemma checkMySQLPostTable_any (w : world) :
  db (snd (checkMySQLPostTable w)) = db w
  /\ exists evs,
      trace (snd (checkMySQLPostTable w)) = trace w ++ evs
      /\ forallb is_raw evs = true.
Proof.
  destruct (mem "posts" (tables (db w))) eqn:Hposts.
  - destruct (checkMySQLPostTable_resolves w Hposts) as (arr & w1 & E & Hdb).
    rewrite E. cbn [snd]. split; [exact Hdb|].
    apply checkMySQLPostTable_resolved in E.
    destruct E as (entries & _ & _ & _ & _ & Ht).
    exists ([Issued show_fields; Fulfilled show_fields] ++ map Issued (to_widen entries)).
    split; [exact Ht|].
    rewrite forallb_app. cbn [forallb is_raw show_fields andb].
    apply is_raw_Issued, to_widen_Raw.
  - rewrite (checkMySQLPostTable_missing_posts w Hposts). cbn [snd db trace].
    split; [reflexivity|].
    exists [Issued show_fields; Refused show_fields].
    rewrite <- app_assoc. split; reflexivity.
Qed.

(** X13. [migrateUp] is idempotent on the tables: after a run that
    resolved, for a Registry that does not declare sqlite_sequence, a
    second run finds nothing to drop and nothing to create; whatever
    becomes of it, it issues raw queries only (the enumeration and, on
    MySQL, the check with the ALTERs it starts), so the live tables and
    the settings rows stay as they are. *)
Theorem migrateUp_twice_changes_nothing
  (client : string) (schemaTables : list string) (w w' : world) :
  migrateUp client schemaTables w = (Resolved tt, w') ->
  ~ In "sqlite_sequence" schemaTables ->
  tables (db (snd (migrateUp client schemaTables w'))) = tables (db w')
  /\ settings (db (snd (migrateUp client schemaTables w'))) = settings (db w')
  /\ exists evs,
      trace (snd (migrateUp client schemaTables w')) = trace w' ++ evs
      /\ forallb is_raw evs = true.
Proof.
  intros Hrun Hseq.
  pose proof (migrateUp_leaves_registry_aux client schemaTables w w' Hrun) as Hreg.
  apply migrateUp_resolved_enumerated in Hrun. destruct Hrun as (Hs & _).
  assert (Hdel : difference (enumerated client (tables (db w'))) schemaTables = []).
  { apply difference_all. intros t Ht.
    destruct (String.eqb t "sqlite_sequence") eqn:E.
    - apply String.eqb_eq in E. subst t.
      apply enumerated_In in Ht as Hlive.
      apply (proj2 Hreg) in Hlive. destruct Hlive as [H|H]; [exact H|].
      exfalso. revert Ht. unfold enumerated. rewrite H.
      rewrite filter_In. cbn. intros [_ F]. discriminate F.
    - apply String.eqb_neq in E. apply (proj1 Hreg t E).
      now apply enumerated_In in Ht. }
  assert (Hadd : difference schemaTables (enumerated client (tables (db w'))) = []).
  { apply difference_all. intros t Ht.
    assert (Hne : t <> "sqlite_sequence") by (intros ->; contradiction).
    apply In_enumerated; [|exact Hne]. now apply (proj1 Hreg t Hne). }
  assert (Hall : db (snd (migrateUp client schemaTables w')) = db w'
                 /\ exists evs,
                     trace (snd (migrateUp client schemaTables w')) = trace w' ++ evs
                     /\ forallb is_raw evs = true).
  { rewrite migrateUp_steps, (getTables_supported client w' Hs).
    unfold migrate_commands. rewrite Hdel, Hadd. cbn [map app sequence].
    destruct (negb (isEmpty (enumerated client (tables (db w'))))
              && String.eqb client "mysql").
    - destruct (checkMySQLPostTable_any (listed client w')) as (Hdb & evs & Ht & Hraw).
      destruct (checkMySQLPostTable (listed client w')) as [[arr|e|] w1];
        cbn [snd ret] in *; (split; [exact Hdb|]);
        exists ([Issued (Raw (listing_sql client)); Fulfilled (Raw (listing_sql client))]
                ++ evs);
        (split; [rewrite Ht; cbn [listed trace]; rewrite <- !app_assoc; reflexivity
                |exact Hraw]).
    - cbn [snd ret listed db trace]. split; [reflexivity|].
      exists [Issued (Raw (listing_sql client)); Fulfilled (Raw (listing_sql client))].
      rewrite <- app_assoc. split; reflexivity. }
  destruct Hall as (Hdb & Htrace). rewrite Hdb. repeat split. exact Htrace.
Qed.

Lemma migrateUp_twice_changes_nothing_witness :
  tables (db (snd (migrateUp "mysql" sample_tables
                     (snd (migrateUp "mysql" sample_tables (boot outdated_db))))))
  = tables (db (snd (migrateUp "mysql" sample_tables (boot outdated_db)))).
Proof.
  refine (proj1 (migrateUp_twice_changes_nothing "mysql" sample_tables
                   (boot outdated_db)
                   (snd (migrateUp "mysql" sample_tables (boot outdated_db))) _ _)).
  - vm_compute. reflexivity.
  - cbn [sample_tables In]. intuition discriminate.
Defined.

(** X14. [migrateUp] never drops a table the Registry declares: when the
    Registry declares the settings table, a run that resolves keeps the
    settings rows as they were, and every Registry table that was live is
    still live. *)
Theorem migrateUp_keeps_registry_tables
  (client : string) (schemaTables : list string) (w w' : world) :
  migrateUp client schemaTables w = (Resolved tt, w') ->
  (In "settings" schemaTables -> settings (db w') = settings (db w))
  /\ (forall t, In t schemaTables -> In t (tables (db w)) -> In t (tables (db w')))
  /\ (forall t, ~ In (Issued (DropTableIfExists t)) (trace w) ->
                In (Issued (DropTableIfExists t)) (trace w') ->
                ~ In t schemaTables).
Proof.
  intro Hrun. pose proof Hrun as Hrun'.
  apply migrateUp_resolved_enumerated in Hrun.
  destruct Hrun as (_ & w1 & Hdb & _ & (pre & Ht1 & Hraw) & Hseq).
  apply migrate_commands_resolved in Hseq.
  destruct Hseq as (Ht & _ & _ & Htab & Hs).
  split; [|split].
  - intro Hin. rewrite Hs, Hdb.
    destruct (mem "settings" (difference (enumerated client (tables (db w)))
                                         schemaTables)) eqn:E; [|reflexivity].
    apply mem_In, difference_In in E. tauto.
  - intros t Hs' Hlive. rewrite Htab, Hdb, in_app_iff, filter_In. left.
    split; [exact Hlive|].
    apply negb_true_iff, mem_false. rewrite difference_In. tauto.
  - intros t Hbefore Hafter. rewrite Ht, Ht1, !in_app_iff in Hafter.
    destruct Hafter as [[H|H]|[H|H]].
    + contradiction.
    + rewrite forallb_forall in Hraw. apply Hraw in H. discriminate H.
    + apply in_flat_map in H. destruct H as (t' & Hdel & H).
      apply difference_In in Hdel.
      destruct H as [H|[H|[]]]; [|discriminate H].
      injection H as ->. tauto.
    + apply in_flat_map in H. destruct H as (t' & _ & H).
      destruct H as [H|[H|[]]]; discriminate H.
Qed.

Lemma migrateUp_keeps_registry_tables_witness :
  settings (db (snd (migrateUp "sqlite3" sample_tables (boot outdated_db))))
  = settings (db (boot outdated_db)).
Proof.
  refine (proj1 (migrateUp_keeps_registry_tables "sqlite3" sample_tables
                   (boot outdated_db)
                   (snd (migrateUp "sqlite3" sample_tables (boot outdated_db))) _) _).
  - vm_compute. reflexivity.
  - cbn. tauto.
Defined.

Lemma getDefaultDatabaseVersion_caches
  (core : list (string * string)) (w w' : world) (d : string) :
  getDefaultDatabaseVersion core w = (Resolved d, w') ->
  defaultDatabaseVersion w' = Some d.
Proof.
  unfold getDefaultDatabaseVersion.
  destruct (defaultDatabaseVersion w) as [[|c r]|] eqn:Hc.
  - destruct (find _ core) as [setting|]; [|discriminate].
    intro E. now injection E as <- <-.
  - intro E. now injection E as <- <-.
  - destruct (find _ core) as [setting|]; [|discriminate].
    intro E. now injection E as <- <-.
Qed.

(** X15. In an upgrade run of [init] that resolves, the marker is written
    once, with the default version, as the very last operation: between
    the reads of the resolver and the write lie only raw queries and
    table operations, all fulfilled before the write is issued.  When
    [migrateUp] is rejected instead, [init] is rejected with the same
    error and ends where [migrateUp] ended: the marker is not written. *)
Theorem init_upgrade_writes_the_marker_last
  (client : string) (schemaTables : list string) (core : list (string * string))
  (thrown : string -> js_err) (w w1 w2 : world) (current target : string) :
  getDatabaseVersion thrown w = (Resolved current, w1) ->
  getDefaultDatabaseVersion core w1 = (Resolved target, w2) ->
  JS.str_lt current target = true ->
  (forall w', init client schemaTables core thrown w = (Resolved tt, w') ->
              exists evs,
                trace w' = trace w ++ resolver_reads ++ evs
                           ++ [Issued (UpdateVersion (Some target));
                               Fulfilled (UpdateVersion (Some target))]
                /\ forallb (fun e => is_raw e || is_table_op e) evs = true)
  /\ (forall e w3, migrateUp client schemaTables w2 = (Rejected e, w3) ->
                   init client schemaTables core thrown w = (Rejected e, w3)).
Proof.
  intros Hget Hdef Hlt.
  assert (Hinit : init client schemaTables core thrown w
                  = (_ <- migrateUp client schemaTables ;; setDatabaseVersion) w2).
  { unfold init, then2. rewrite Hget. unfold bind at 1.
    rewrite Hdef, (str_lt_neq _ _ Hlt), Hlt. reflexivity. }
  rewrite Hinit. unfold bind. split.
  - intros w' Hrun.
    destruct (migrateUp client schemaTables w2) as [[[]|e|] w3] eqn:Hup;
      try discriminate.
    pose proof (getDefaultDatabaseVersion_caches _ _ _ _ Hdef) as Hc.
    apply getDatabaseVersion_resolved in Hget. destruct Hget as [-> _].
    apply getDefaultDatabaseVersion_resolved in Hdef.
    destruct Hdef as (_ & _ & Ht2 & _).
    apply migrateUp_resolved_enumerated in Hup.
    destruct Hup as (_ & w4 & _ & Hc4 & (pre & Ht4 & Hraw) & Hseq).
    apply migrate_commands_resolved in Hseq.
    destruct Hseq as (Ht3 & _ & Hc3 & _).
    unfold setDatabaseVersion, await, answer_updateVersion in Hrun.
    cbn [db log] in Hrun.
    destruct (mem "settings" (tables (db w3))); [|discriminate].
    injection Hrun as <-. cbn [trace log set_db].
    rewrite Hc3, Hc4, Hc, Ht3, Ht4, Ht2, probed_trace.
    eexists (pre ++ flat_map drop_events _ ++ flat_map create_events _).
    split.
    + unfold resolver_reads. rewrite <- !app_assoc. reflexivity.
    + rewrite !forallb_app. apply andb_true_iff. split; [|apply andb_true_iff; split].
      * rewrite forallb_forall in *. intros e He. now rewrite (Hraw e He).
      * pose proof (drop_events_table_ops
                      (difference (enumerated client (tables (db w2))) schemaTables))
          as H.
        rewrite forallb_forall in *. intros e He. rewrite (H e He). apply orb_true_r.
      * pose proof (create_events_table_ops
                      (difference schemaTables (enumerated client (tables (db w2)))))
          as H.
        rewrite forallb_forall in *. intros e He. rewrite (H e He). apply orb_true_r.
  - intros e w3 Hup. rewrite Hup. reflexivity.
Qed.

Lemma init_upgrade_writes_the_marker_last_witness :
  exists evs,
    trace (snd (init "sqlite3" sample_tables sample_defaults throwError
                     (boot outdated_db)))
    = trace (boot outdated_db) ++ resolver_reads ++ evs
      ++ [Issued (UpdateVersion (Some "004")); Fulfilled (UpdateVersion (Some "004"))]
    /\ forallb (fun e => is_raw e || is_table_op e) evs = true.
Proof.
  apply (proj1 (init_upgrade_writes_the_marker_last
                  "sqlite3" sample_tables sample_defaults throwError
                  (boot outdated_db)
                  (snd (getDatabaseVersion throwError (boot outdated_db)))
                  (snd (getDefaultDatabaseVersion sample_defaults
                          (snd (getDatabaseVersion throwError (boot outdated_db)))))
                  "003" "004" eq_refl eq_refl eq_refl)).
  vm_compute. reflexivity.
Defined.

(** ** The MySQL check of the posts table *)

Lemma length_append (a b : string) :
  String.length (a ++ b)%string = String.length a + String.length b.
Proof. induction a as [|c a IH]; cbn; [reflexivity|now rewrite IH]. Qed.

Lemma append_inj_r (b f g : string) : (f ++ b)%string = (g ++ b)%string -> f = g.
Proof.
  revert g. induction f as [|c f IH]; intros [|d g] H.
  - reflexivity.
  - apply (f_equal String.length) in H. cbn in H. rewrite length_append in H. lia.
  - apply (f_equal String.length) in H. cbn in H. rewrite length_append in H. lia.
  - cbn in H. injection H as -> H. f_equal. now apply IH.
Qed.

Lemma alter_posts_inj (f g : string) : alter_posts f = alter_posts g -> f = g.
Proof.
  unfold alter_posts. intro H. injection H as H.
  now apply append_inj_r in H.
Qed.

(** X16. When the check resolves, it has issued SHOW FIELDS and then one
    ALTER ... MEDIUMTEXT for exactly the fields 'html' and 'markdown' of
    the posts table whose type, lower-cased, is not 'mediumtext'; no other
    field is altered and nothing else is issued. *)
Theorem checkMySQLPostTable_widens_narrow_columns
  (w w1 : world) (arr : list (option query)) :
  checkMySQLPostTable w = (Resolved arr, w1) ->
  exists evs,
    trace w1 = trace w ++ [Issued show_fields; Fulfilled show_fields] ++ evs
    /\ (forall e, In e evs -> exists f, e = Issued (alter_posts f))
    /\ (forall f,
           In (Issued (alter_posts f)) evs <->
           (f = "html" \/ f = "markdown")
           /\ exists ty, In (f, ty) (posts_fields (db w))
                         /\ JS.toLowerCase ty <> "mediumtext").
Proof.
  intro H. apply checkMySQLPostTable_resolved in H.
  destruct H as (entries & Hshow & _ & _ & _ & Ht).
  unfold answer_showFields in Hshow.
  destruct (mem "posts" (tables (db w))); [|discriminate].
  injection Hshow as <-.
  eexists. split; [exact Ht|]. split.
  - intros e He. apply in_map_iff in He. destruct He as (q & <- & Hq).
    unfold to_widen in Hq. apply in_map_iff in Hq.
    destruct Hq as (entry & <- & _). eauto.
  - intro f. split.
    + intro Hin. apply in_map_iff in Hin. destruct Hin as (q & Eq & Hq).
      injection Eq as ->. unfold to_widen in Hq. apply in_map_iff in Hq.
      destruct Hq as ([f' ty] & Ef & Hentry). apply alter_posts_inj in Ef.
      cbn [fst] in Ef. subst f'.
      apply filter_In in Hentry. destruct Hentry as [Hentry Hnarrow].
      apply filter_In in Hentry. destruct Hentry as [Hfield Hname].
      cbn [fst snd] in *. split.
      * apply orb_true_iff in Hname.
        destruct Hname as [E|E]; apply String.eqb_eq in E; tauto.
      * exists ty. split; [exact Hfield|].
        now apply negb_true_iff, String.eqb_neq in Hnarrow.
    + intros (Hname & ty & Hfield & Hnarrow).
      apply in_map. unfold to_widen. apply in_map_iff. exists (f, ty).
      split; [reflexivity|]. apply filter_In. split.
      * apply filter_In. split; [exact Hfield|]. cbn [fst].
        apply orb_true_iff. destruct Hname as [-> | ->]; [left|right]; reflexivity.
      * cbn [snd]. now apply negb_true_iff, String.eqb_neq.
Qed.

Lemma checkMySQLPostTable_widens_narrow_columns_witness :
  exists evs,
    trace (snd (checkMySQLPostTable (boot outdated_db)))
    = trace (boot outdated_db) ++ [Issued show_fields; Fulfilled show_fields] ++ evs
    /\ (forall e, In e evs -> exists f, e = Issued (alter_posts f))
    /\ (forall f,
           In (Issued (alter_posts f)) evs <->
           (f = "html" \/ f = "markdown")
           /\ exists ty, In (f, ty) (posts_fields (db (boot outdated_db)))
                         /\ JS.toLowerCase ty <> "mediumtext").
Proof.
  apply (checkMySQLPostTable_widens_narrow_columns (boot outdated_db)
           (snd (checkMySQLPostTable (boot outdated_db)))
           (match fst (checkMySQLPostTable (boot outdated_db)) with
            | Resolved arr => arr
            | _ => []
            end)).
  vm_compute. reflexivity.
Defined.

(** ** The other variant of init on a fresh database *)

(** X17. In the second variant of [init], a database without a settings
    table is not bootstrapped: the resolver rejects with an [Error]
    object, which is not the string the rejection handler compares it
    with, so the handler reports 'There is a problem with the database'
    to the error sink and the process ends; the fresh-install path is
    never entered. *)
Theorem versioned_init_fresh_database_is_fatal
  (core : list (string * string)) (thrown : string -> js_err)
  (up : string -> M unit) (fresh : M unit) (w : world) :
  mem "settings" (tables (db w)) = false ->
  Versioned.init core thrown up fresh w
  = (Exited,
     log (LogErrorAndExit "There is a problem with the database"
                          (JString "Settings table does not exist"))
         (probed false w)).
Proof.
  intro Hs. unfold Versioned.init, then2.
  rewrite getDatabaseVersion_steps, Hs. reflexivity.
Qed.

Lemma versioned_init_fresh_database_is_fatal_witness :
  fst (Versioned.init sample_defaults throwError
         (fun _ => ret tt) (migrateUpFreshDb sample_tables)
         (boot (mkDatabase [] [] [])))
  = Exited.
Proof.
  rewrite (versioned_init_fresh_database_is_fatal sample_defaults throwError
             (fun _ => ret tt) (migrateUpFreshDb sample_tables)
             (boot (mkDatabase [] [] [])) eq_refl).
  reflexivity.
Defined.

(** ** Version arithmetic on every version *)

Lemma digit_not_ws (c : ascii) : JS.is_digit c = true -> JS.is_ws c = false.
Proof.
  destruct c as [[] [] [] [] [] [] [] []]; intro H; try discriminate H; reflexivity.
Qed.

Lemma digit_no_sign (c : ascii) (r : string) :
  JS.is_digit c = true ->
  JS.strip_sign (String c r) = String c r
  /\ match String c r with String "-" _ => true | _ => false end = false.
Proof.
  destruct c as [[] [] [] [] [] [] [] []]; intro H; try discriminate H;
    split; reflexivity.
Qed.

Lemma span_all (p : ascii -> bool) (s : string) :
  JS.all_chars p s = true -> JS.span p s = (s, EmptyString).
Proof.
  induction s as [|c s IH]; cbn [JS.all_chars JS.span]; [reflexivity|].
  intro H. apply andb_true_iff in H. destruct H as [Hc Hs].
  now rewrite Hc, (IH Hs).
Qed.

(** A non-empty run of digits parses as the number it denotes. *)
Lemma parseInt_digits (s : string) :
  JS.all_chars JS.is_digit s = true -> JS.nonempty s = true ->
  JS.parseInt s = Some (JS.digits_val 0 s).
Proof.
  destruct s as [|c r]; [discriminate|]. intros Hall _.
  pose proof Hall as Hall'. cbn [JS.all_chars] in Hall'.
  apply andb_true_iff in Hall'. destruct Hall' as [Hc _].
  unfold JS.parseInt. cbn [JS.trim_left]. rewrite (digit_not_ws c Hc).
  destruct (digit_no_sign c r Hc) as [Hstrip Hneg].
  rewrite Hstrip, Hneg, (span_all _ _ Hall). reflexivity.
Qed.

Lemma digits_val_app (a : Z) (s1 s2 : string) :
  JS.digits_val a (s1 ++ s2)%string = JS.digits_val (JS.digits_val a s1) s2.
Proof.
  revert a. induction s1 as [|c s1 IH]; intro a; cbn [String.append JS.digits_val];
    [reflexivity|apply IH].
Qed.

Lemma all_chars_app (p : ascii -> bool) (s1 s2 : string) :
  JS.all_chars p (s1 ++ s2)%string = JS.all_chars p s1 && JS.all_chars p s2.
Proof.
  induction s1 as [|c s1 IH]; cbn [String.append JS.all_chars]; [reflexivity|].
  now rewrite IH, andb_assoc.
Qed.

Lemma append_String (s1 : string) (c : ascii) (s2 : string) :
  ((s1 ++ String c EmptyString) ++ s2)%string = (s1 ++ String c s2)%string.
Proof.
  induction s1 as [|d s1 IH]; cbn [String.append]; [reflexivity|now rewrite IH].
Qed.

Lemma digit_char_digit (d : Z) :
  (0 <= d <= 9)%Z ->
  JS.is_digit (JS.digit_char d) = true /\ JS.digit_val (JS.digit_char d) = d.
Proof.
  intro H.
  assert (E : (d = 0 \/ d = 1 \/ d = 2 \/ d = 3 \/ d = 4 \/ d = 5 \/ d = 6
               \/ d = 7 \/ d = 8 \/ d = 9)%Z) by lia.
  repeat (destruct E as [->|E]; [split; reflexivity|]).
  subst d. split; reflexivity.
Qed.

(** With enough rounds, the digit loop of [String] prints the number. *)
Lemma digits_of_prints (fuel : nat) (n : Z) (acc : string) :
  (0 <= n < 10 ^ (Z.of_nat fuel + 1))%Z ->
  exists ds,
    JS.digits_of fuel n acc = (ds ++ acc)%string
    /\ JS.all_chars JS.is_digit ds = true
    /\ JS.nonempty ds = true
    /\ JS.digits_val 0 ds = n.
Proof.
  revert n acc. induction fuel as [|f IH]; intros n acc Hn.
  - change (10 ^ (Z.of_nat 0 + 1))%Z with 10%Z in Hn.
    cbn [JS.digits_of]. rewrite (Z.mod_small n 10) by lia.
    destruct (digit_char_digit n) as [Hd Hv]; [lia|].
    exists (String (JS.digit_char n) EmptyString).
    cbn [String.append JS.all_chars JS.nonempty JS.digits_val].
    rewrite Hd, Hv. repeat split.
  - cbn [JS.digits_of].
    assert (Hmod : (0 <= n mod 10 <= 9)%Z) by (pose proof (Z.mod_pos_bound n 10); lia).
    destruct (digit_char_digit (n mod 10) Hmod) as [Hd Hv].
    destruct (Z.eqb_spec (n / 10) 0) as [Hq|Hq].
    + exists (String (JS.digit_char (n mod 10)) EmptyString).
      cbn [String.append JS.all_chars JS.nonempty JS.digits_val].
      rewrite Hd, Hv. repeat split.
      pose proof (Z.div_mod n 10). lia.
    + destruct (IH (n / 10)%Z (String (JS.digit_char (n mod 10)) acc))
        as (ds & E & Hall & Hne & Hval).
      { split; [apply Z.div_pos; lia|].
        apply Z.div_lt_upper_bound; [lia|].
        replace (Z.of_nat (S f) + 1)%Z with (Z.succ (Z.of_nat f + 1)) in Hn by lia.
        rewrite Z.pow_succ_r in Hn by lia. lia. }
      exists (ds ++ String (JS.digit_char (n mod 10)) EmptyString)%string.
      rewrite E, append_String, all_chars_app, digits_val_app, Hall, Hval.
      cbn [JS.all_chars JS.digits_val]. rewrite Hd, Hv.
      split; [reflexivity|]. split; [reflexivity|]. split.
      * destruct ds; [discriminate|reflexivity].
      * pose proof (Z.div_mod n 10). lia.
Qed.

Lemma String_of_prints (n : Z) :
  (0 <= n)%Z ->
  JS.all_chars JS.is_digit (JS.String_of n) = true
  /\ JS.nonempty (JS.String_of n) = true
  /\ JS.digits_val 0 (JS.String_of n) = n.
Proof.
  intro Hn. unfold JS.String_of. rewrite (Z.abs_eq n Hn).
  destruct (Z.ltb_spec n 0) as [H|_]; [lia|].
  destruct (digits_of_prints (Z.to_nat (Z.log2 n)) n EmptyString)
    as (ds & E & Hall & Hne & Hval).
  { split; [exact Hn|]. rewrite Z2Nat.id by apply Z.log2_nonneg.
    destruct (Z.eq_dec n 0) as [->|Hz]; [reflexivity|].
    assert (Hpos : (0 < n)%Z) by lia.
    pose proof (Z.log2_spec n Hpos) as [_ Hlt].
    assert (Hle : (2 ^ Z.succ (Z.log2 n) <= 10 ^ Z.succ (Z.log2 n))%Z).
    { apply Z.pow_le_mono_l. lia. }
    unfold Z.succ in *. lia. }
  rewrite E. clear E.
  assert (Hnil : (ds ++ EmptyString)%string = ds).
  { clear. induction ds as [|c ds IH]; cbn; [reflexivity|now rewrite IH]. }
  rewrite Hnil. repeat split; assumption.
Qed.

Lemma pad_digits (s : string) :
  JS.all_chars JS.is_digit s = true -> JS.nonempty s = true ->
  JS.all_chars JS.is_digit (pad s) = true
  /\ JS.nonempty (pad s) = true
  /\ JS.digits_val 0 (pad s) = JS.digits_val 0 s.
Proof.
  intros Hall Hne. unfold pad. cbn [pad_loop].
  repeat match goal with
         | |- context [Nat.ltb ?x ?y] => destruct (Nat.ltb x y)
         end;
    cbn [JS.all_chars JS.nonempty JS.digits_val]; rewrite ?Hall;
    repeat split; try exact Hne.
Qed.

Lemma parseInt_pad_String_of (n : Z) :
  (0 <= n)%Z ->
  JS.parseInt (pad (JS.String_of n)) = Some n
  /\ JS.all_chars JS.is_digit (pad (JS.String_of n)) = true.
Proof.
  intro Hn. destruct (String_of_prints n Hn) as (Hall & Hne & Hval).
  destruct (pad_digits _ Hall Hne) as (Hall' & Hne' & Hval').
  split; [|exact Hall'].
  rewrite (parseInt_digits _ Hall' Hne'), Hval', Hval. reflexivity.
Qed.

(** X18. [getVersionAfter] and [getVersionBefore] are the numeric
    successor and predecessor on every version [parseInt] reads, also
    beyond 999, as long as the numbers stay within the integers a
    JavaScript number holds exactly (up to 2^53) and the result is not
    negative: the result is made of digits only, at least three of them,
    and parses as the number; a version [parseInt] does not read counts as
    '000'. *)
Theorem getVersionAfter_is_the_successor :
  (forall v k, JS.parseInt v = Some k -> (0 <= k + 1 <= 2 ^ 53)%Z ->
               JS.parseInt (getVersionAfter v) = Some (k + 1)%Z
               /\ JS.all_chars JS.is_digit (getVersionAfter v) = true
               /\ 3 <= String.length (getVersionAfter v))
  /\ (forall v k, JS.parseInt v = Some k -> (0 <= k - 1)%Z -> (k <= 2 ^ 53)%Z ->
                  JS.parseInt (getVersionBefore v) = Some (k - 1)%Z
                  /\ JS.all_chars JS.is_digit (getVersionBefore v) = true
                  /\ 3 <= String.length (getVersionBefore v))
  /\ (forall v, JS.parseInt v = None ->
                getVersionAfter v = "001" /\ getVersionBefore v = "0-1").
Proof.
  split; [|split].
  - intros v k Hv [Hk _]. unfold getVersionAfter, parse_or_initial. rewrite Hv.
    destruct (parseInt_pad_String_of (k + 1) Hk) as [H1 H2].
    split; [exact H1|]. split; [exact H2|apply pad_length].
  - intros v k Hv Hk _. unfold getVersionBefore, parse_or_initial. rewrite Hv.
    destruct (parseInt_pad_String_of (k - 1) Hk) as [H1 H2].
    split; [exact H1|]. split; [exact H2|apply pad_length].
  - intros v Hv. unfold getVersionAfter, getVersionBefore, parse_or_initial.
    rewrite Hv. split; reflexivity.
Qed.

Lemma getVersionAfter_is_the_successor_witness :
  JS.parseInt (getVersionAfter "1999") = Some 2000%Z
  /\ JS.parseInt (getVersionBefore "1000") = Some 999%Z
  /\ getVersionAfter "latest" = "001".
Proof.
  split; [|split].
  - apply (proj1 getVersionAfter_is_the_successor "1999" 1999%Z);
      [reflexivity|vm_compute; split; discriminate].
  - apply (proj1 (proj2 getVersionAfter_is_the_successor) "1000" 1000%Z);
      [reflexivity|lia|vm_compute; discriminate].
  - apply (proj2 (proj2 getVersionAfter_is_the_successor) "latest"). reflexivity.
Defined.

(** ** The aggregation loops *)

Lemma version_of_parseInt (k : nat) :
  JS.parseInt (version_of k) = Some (Z.of_nat k)
  /\ JS.all_chars JS.is_digit (version_of k) = true.
Proof. apply parseInt_pad_String_of. lia. Qed.

Lemma version_of_inj (a b : nat) : version_of a = version_of b -> a = b.
Proof.
  intro H. pose proof (proj1 (version_of_parseInt a)) as Ha.
  rewrite H, (proj1 (version_of_parseInt b)) in Ha. injection Ha as Ha. lia.
Qed.

Lemma getVersionAfter_version_of (k : nat) :
  getVersionAfter (version_of k) = version_of (S k).
Proof.
  unfold getVersionAfter, parse_or_initial.
  rewrite (proj1 (version_of_parseInt k)). unfold version_of.
  now replace (Z.of_nat (S k)) with (Z.of_nat k + 1)%Z by lia.
Qed.

Lemma getVersionBefore_version_of (k : nat) :
  getVersionBefore (version_of (S k)) = version_of k.
Proof.
  unfold getVersionBefore, parse_or_initial.
  rewrite (proj1 (version_of_parseInt (S k))). unfold version_of.
  now replace (Z.of_nat (S k) - 1)%Z with (Z.of_nat k) by lia.
Qed.

Lemma version_of_version (v : string) :
  is_version v = true -> version_of (Z.to_nat (version_number v)) = v.
Proof.
  intro Hv. unfold version_of.
  rewrite Z2Nat.id by (apply version_number_range in Hv; lia).
  now apply version_pad_number.
Qed.

Lemma aggregate_up (len a fuel : nat) :
  len <= fuel ->
  aggregate_versions getVersionAfter fuel (version_of a) (version_of (a + len))
  = Some (map version_of (seq a len)).
Proof.
  revert a fuel. induction len as [|len IH]; intros a fuel Hfuel.
  - rewrite Nat.add_0_r. destruct fuel; cbn [aggregate_versions];
      now rewrite String.eqb_refl.
  - destruct fuel as [|f]; [lia|]. cbn [aggregate_versions].
    assert (Hne : String.eqb (version_of a) (version_of (a + S len)) = false).
    { apply String.eqb_neq. intro H. apply version_of_inj in H. lia. }
    rewrite Hne, getVersionAfter_version_of.
    replace (a + S len) with (S a + len) by lia.
    rewrite IH by lia. reflexivity.
Qed.

Lemma aggregate_up_diverges (fuel a b : nat) :
  b < a ->
  aggregate_versions getVersionAfter fuel (version_of a) (version_of b) = None.
Proof.
  revert a. induction fuel as [|f IH]; intros a Hlt; cbn [aggregate_versions];
    (assert (Hne : String.eqb (version_of a) (version_of b) = false);
     [apply String.eqb_neq; intro H; apply version_of_inj in H; lia|rewrite Hne]).
  - reflexivity.
  - rewrite getVersionAfter_version_of, IH by lia. reflexivity.
Qed.

Lemma version_of_not_stop (k : nat) : String.eqb (version_of k) "0-1" = false.
Proof.
  apply String.eqb_neq. intro H.
  pose proof (proj2 (version_of_parseInt k)) as Hd.
  rewrite H in Hd. discriminate Hd.
Qed.

Lemma aggregate_down (k fuel : nat) :
  k < fuel ->
  aggregate_versions getVersionBefore fuel (version_of k) "0-1"
  = Some (map version_of (rev (seq 0 (S k)))).
Proof.
  revert fuel. induction k as [|k IH]; intros fuel Hfuel;
    (destruct fuel as [|f]; [lia|]); cbn [aggregate_versions];
    rewrite version_of_not_stop.
  - change (getVersionBefore (version_of 0)) with "0-1".
    destruct f; reflexivity.
  - rewrite getVersionBefore_version_of, IH by lia.
    rewrite (seq_S (S k) 0), rev_app_distr. reflexivity.
Qed.

(** X19. From a three-digit version no greater than the default version,
    the loop of [migrateUpFromVersion] ends and collects the versions from
    it up to the default version, each once, in ascending order. *)
Theorem versions_up_ascending (fuel : nat) (version defaultVersion : string) :
  is_version version = true -> is_version defaultVersion = true ->
  (version_number version <= version_number defaultVersion)%Z ->
  Z.to_nat (version_number defaultVersion - version_number version) < fuel ->
  versions_up fuel version None defaultVersion
  = Some (map version_of
              (seq (Z.to_nat (version_number version))
                   (S (Z.to_nat (version_number defaultVersion - version_number version))))).
Proof.
  intros Hv Hd Hle Hfuel.
  pose proof (version_number_range _ Hv). pose proof (version_number_range _ Hd).
  pose proof (aggregate_up
                (S (Z.to_nat (version_number defaultVersion - version_number version)))
                (Z.to_nat (version_number version)) fuel) as H1.
  replace (Z.to_nat (version_number version)
           + S (Z.to_nat (version_number defaultVersion - version_number version)))
    with (S (Z.to_nat (version_number defaultVersion))) in H1 by lia.
  rewrite <- getVersionAfter_version_of, !version_of_version in H1 by assumption.
  apply H1. lia.
Qed.

Lemma versions_up_ascending_witness :
  versions_up 5 "002" None "004" = Some ["002"; "003"; "004"].
Proof.
  apply (versions_up_ascending 5 "002" "004");
    [reflexivity|reflexivity|vm_compute; discriminate|].
  vm_compute. lia.
Defined.

(** X20. From a three-digit version more than one above the default
    version, the loop of [migrateUpFromVersion] never ends: the successor
    moves away from the stop value, whatever the number of rounds. *)
Theorem versions_up_never_ends (fuel : nat) (version defaultVersion : string) :
  is_version version = true -> is_version defaultVersion = true ->
  (version_number defaultVersion + 1 < version_number version)%Z ->
  versions_up fuel version None defaultVersion = None.
Proof.
  intros Hv Hd Hlt.
  pose proof (version_number_range _ Hv). pose proof (version_number_range _ Hd).
  pose proof (aggregate_up_diverges fuel (Z.to_nat (version_number version))
                (S (Z.to_nat (version_number defaultVersion)))) as H1.
  rewrite <- getVersionAfter_version_of, !version_of_version in H1 by assumption.
  apply H1. lia.
Qed.

Lemma versions_up_never_ends_witness :
  versions_up 1000 "006" None "004" = None.
Proof.
  apply (versions_up_never_ends 1000 "006" "004"); [reflexivity|reflexivity|].
  vm_compute. reflexivity.
Defined.

(** X21. From every three-digit version the loop of
    [migrateDownFromVersion] ends and collects the versions from it down
    to '000', each once, in descending order: the loop stops because the
    predecessor of '000' is printed '0-1', which is also the stop value. *)
Theorem versions_down_descending (fuel : nat) (version : string) :
  is_version version = true ->
  Z.to_nat (version_number version) < fuel ->
  versions_down fuel version
  = Some (map version_of (rev (seq 0 (S (Z.to_nat (version_number version)))))).
Proof.
  intros Hv Hfuel.
  pose proof (aggregate_down (Z.to_nat (version_number version)) fuel Hfuel) as H1.
  rewrite version_of_version in H1 by assumption. exact H1.
Qed.

Lemma versions_down_descending_witness :
  versions_down 4 "003" = Some ["003"; "002"; "001"; "000"].
Proof.
  apply (versions_down_descending 4 "003"); [reflexivity|].
  vm_compute. lia.
Defined.

(** ** migrateUp on a database that is in step with the Registry *)

(** X22. When the enumerated live tables are exactly the tables of the
    Registry, both command lists are undefined and [migrateUp] runs no
    sequence at all: whatever becomes of it, it issues raw queries only
    (the enumeration and, on MySQL, the check with the ALTERs it starts),
    so the live tables and the settings rows stay as they are; off MySQL
    it resolves right after the enumeration. *)
Theorem migrateUp_in_step_issues_no_table_operation
  (client : string) (schemaTables : list string) (w : world) :
  supported client = true ->
  (forall t, In t (enumerated client (tables (db w))) <-> In t schemaTables) ->
  getDeleteCommands (enumerated client (tables (db w))) schemaTables = None
  /\ getAddCommands (enumerated client (tables (db w))) schemaTables = None
  /\ tables (db (snd (migrateUp client schemaTables w))) = tables (db w)
  /\ settings (db (snd (migrateUp client schemaTables w))) = settings (db w)
  /\ (exists evs,
         trace (snd (migrateUp client schemaTables w)) = trace w ++ evs
         /\ forallb is_raw evs = true)
  /\ (String.eqb client "mysql" = false ->
      migrateUp client schemaTables w = (Resolved tt, listed client w)).
Proof.
  intros Hs Hsame.
  assert (Hdel : difference (enumerated client (tables (db w))) schemaTables = []).
  { apply difference_all. intros t Ht. now apply Hsame. }
  assert (Hadd : difference schemaTables (enumerated client (tables (db w))) = []).
  { apply difference_all. intros t Ht. now apply Hsame. }
  split; [unfold getDeleteCommands; now rewrite Hdel|].
  split; [unfold getAddCommands; now rewrite Hadd|].
  assert (Hall : db (snd (migrateUp client schemaTables w)) = db w
                 /\ (exists evs,
                        trace (snd (migrateUp client schemaTables w)) = trace w ++ evs
                        /\ forallb is_raw evs = true)
                 /\ (String.eqb client "mysql" = false ->
                     migrateUp client schemaTables w = (Resolved tt, listed client w))).
  { rewrite migrateUp_steps, (getTables_supported client w Hs).
    unfold migrate_commands. rewrite Hdel, Hadd. cbn [map app sequence].
    destruct (String.eqb client "mysql") eqn:Hclient.
    - rewrite andb_true_r.
      destruct (negb (isEmpty (enumerated client (tables (db w))))).
      + destruct (checkMySQLPostTable_any (listed client w))
          as (Hdb & evs & Ht & Hraw).
        split; [|split; [|discriminate]].
        * destruct (checkMySQLPostTable (listed client w)) as [[arr|e|] w1];
            cbn [snd ret] in *; exact Hdb.
        * exists ([Issued (Raw (listing_sql client));
                   Fulfilled (Raw (listing_sql client))] ++ evs).
          destruct (checkMySQLPostTable (listed client w)) as [[arr|e|] w1];
            cbn [snd ret] in *;
            (split; [rewrite Ht; cbn [listed trace]; rewrite <- !app_assoc; reflexivity
                    |exact Hraw]).
      + cbn [snd ret listed db trace]. split; [reflexivity|]. split; [|discriminate].
        exists [Issued (Raw (listing_sql client)); Fulfilled (Raw (listing_sql client))].
        rewrite <- app_assoc. split; reflexivity.
    - rewrite andb_false_r. cbn [snd ret listed db trace].
      split; [reflexivity|]. split; [|reflexivity].
      exists [Issued (Raw (listing_sql client)); Fulfilled (Raw (listing_sql client))].
      rewrite <- app_assoc. split; reflexivity. }
  destruct Hall as (Hdb & Htrace & Hoff). rewrite Hdb.
  split; [reflexivity|]. split; [reflexivity|]. split; [exact Htrace|exact Hoff].
Qed.

Lemma migrateUp_in_step_issues_no_table_operation_witness :
  migrateUp "sqlite3" ["posts"; "settings"]
            (boot (mkDatabase ["settings"; "sqlite_sequence"; "posts"] [] []))
  = (Resolved tt,
     listed "sqlite3" (boot (mkDatabase ["settings"; "sqlite_sequence"; "posts"] [] []))).
Proof.
  apply (migrateUp_in_step_issues_no_table_operation "sqlite3" ["posts"; "settings"]
           (boot (mkDatabase ["settings"; "sqlite_sequence"; "posts"] [] []))).
  - reflexivity.
  - intro t. cbn. tauto.
  - reflexivity.
Defined.
